(** * insights-kafka-monitor: the Kafka group consumer of [consumer.go]

    A shallow embedding of [KafkaConsumer] and its methods, and the
    properties of the consumer-group lifecycle proved about it.

    Conventions.
    - A Go pointer that may be [nil] is an [option]; so are interface values
      and function values.
    - [uint64] counters are integers in [Z]; [++] wraps around at [2^64].
    - Channels and cancellable contexts live in a heap, a consumer holds
      references (indices) to them.
    - Every effect on a collaborator (logger, session, consumer-group client,
      context) is appended to a trace of events.  Entering [HandleMessage]
      and a message-processing function is recorded in the trace too, so that
      "is invoked" can be stated.
    - A method is a function from the state to an outcome: it returns,
      panics, or halts the process ([os.Exit], reached through [log.Fatal]). *)

From Stdlib Require Import ZArith List String Bool Lia Ascii Strings.Byte.
Import ListNotations.

Local Open Scope Z_scope.
Local Open Scope string_scope.
Local Open Scope list_scope.

(** Go [error] values, identified by their message. *)
Definition error := string.

(** ** The client library, as far as the consumer uses it *)

Module sarama.

(** [sarama.ConsumerMessage]: the fields the consumer reads. *)
Record ConsumerMessage := {
  Timestamp : Z;
  Value : list byte;
  Topic : string;
  Partition : Z;   (* int32 *)
  Offset : Z       (* int64 *)
}.

Definition KafkaVersion := (Z * Z * Z * Z)%type.
Definition V0_10_2_0 : KafkaVersion := (0, 10, 2, 0).

(** [sarama.Config]: the protocol version and the three network timeouts
    the constructor mentions. *)
Record Config := {
  Version : KafkaVersion;
  DialTimeout : Z;
  ReadTimeout : Z;
  WriteTimeout : Z
}.

Definition set_Version (v : KafkaVersion) (c : Config) : Config :=
  {| Version := v; DialTimeout := DialTimeout c;
     ReadTimeout := ReadTimeout c; WriteTimeout := WriteTimeout c |}.

(** [sarama.ConsumerGroupClaim]: its initial offset, and the messages its
    channel yields before it is closed. *)
Record ConsumerGroupClaim := {
  InitialOffset : Z;
  Messages : list (option ConsumerMessage)
}.

(** What the library itself computes is left open: the default
    configuration, the state of a consumer-group client, whether creating
    one succeeds, and what closing it returns. *)
Class Library := {
  NewConfig : Config;
  ConsumerGroup : Type;
  NewConsumerGroup : list string -> string -> Config -> ConsumerGroup + error;
  ConsumerGroup_Close : ConsumerGroup -> ConsumerGroup * option error
}.

End sarama.

(** ** Structured log entries (zerolog) *)

Inductive Level := InfoLevel | ErrorLevel | FatalLevel.

Inductive Field :=
| FStr (key value : string)
| FInt (key : string) (value : Z)
| FInt32 (key : string) (value : Z)
| FInt64 (key : string) (value : Z)
| FUint64 (key : string) (value : Z)
| FTime (key : string) (value : Z)
| FErr (e : error).

(** [Msgf] carries the elapsed time it formats, in clock units; the source
    prints it converted to seconds. *)
Inductive Text :=
| Msg (s : string)
| Msgf (format : string) (elapsed : Z).

Record LogEntry := { level : Level; fields : list Field; text : Text }.

Definition topicKey := "topic".
Definition groupKey := "group".
Definition offsetKey := "offset".
Definition partitionKey := "partition".

(** ** Configuration *)

(** Modelled from the spec: the declaration of [BrokerConfiguration] is not
    among the sources.  The spec gives it an address, a topic, a
    consumer-group name and an optional per-operation timeout; the
    constructor reads [Address] and [Group], the driver and the handler read
    [Topic], and the disabled block of the constructor names [Timeout]. *)
Record BrokerConfiguration := {
  Address : string;
  Topic : string;
  Group : string;
  Timeout : Z
}.

Definition set_Timeout (t : Z) (b : BrokerConfiguration) : BrokerConfiguration :=
  {| Address := Address b; Topic := Topic b; Group := Group b; Timeout := t |}.

(** ** Events *)

Inductive Event :=
| EvLog (l : LogEntry)
| EvHandleMessage (msg : option sarama.ConsumerMessage)
| EvProcessMessage (msg : sarama.ConsumerMessage)
| EvMarkMessage (msg : option sarama.ConsumerMessage) (metadata : string)
| EvConsume (topics : list string)
| EvCancel (ctx : nat)
| EvGroupClose.

(** ** The heap: channels, contexts, trace, clock *)

Record Heap := {
  chans : list bool;    (* per channel: has it been closed? *)
  ctxs : list bool;     (* per context: has it been cancelled? *)
  trace : list Event;
  ticks : nat           (* readings of the clock taken so far *)
}.

(** Appending events to the trace. *)
Definition heap_emit (evs : list Event) (h : Heap) : Heap :=
  {| chans := chans h; ctxs := ctxs h; trace := trace h ++ evs; ticks := ticks h |}.

Definition empty_heap : Heap :=
  {| chans := []; ctxs := []; trace := []; ticks := 0 |}.

Fixpoint set_flag (i : nat) (l : list bool) : list bool :=
  match l, i with
  | [], _ => []
  | _ :: t, O => true :: t
  | b :: t, S j => b :: set_flag j t
  end.

Definition uint64_modulus : Z := 2 ^ 64.

Definition uint64_incr (x : Z) : Z := (x + 1) mod uint64_modulus.

(** A message-processing function: it sees the receiver's [Verbose] flag and
    the message, writes log entries and returns an error or [nil]. *)
Definition Processor :=
  bool -> sarama.ConsumerMessage -> list LogEntry * option error.

Section Consumer.

Context {L : sarama.Library}.

(** The clock: the [n]-th reading of [time.Now]. *)
Variable time_Now : nat -> Z.

Record KafkaConsumer := {
  Configuration : BrokerConfiguration;
  ConsumerGroup : option sarama.ConsumerGroup;
  numberOfSuccessfullyConsumedMessages : Z;   (* uint64 *)
  numberOfErrorsConsumingMessages : Z;        (* uint64 *)
  Verbose : bool;
  Ready : option nat;     (* chan bool *)
  Cancel : option nat     (* context.CancelFunc, by the context it cancels *)
}.

Definition State := (KafkaConsumer * Heap)%type.

Inductive Outcome (A : Type) :=
| Ret (a : A) (s : State)
| Panic (reason : string) (s : State)
| Exit (code : Z) (s : State).

Arguments Ret {A} a s.
Arguments Panic {A} reason s.
Arguments Exit {A} code s.

Definition M (A : Type) := State -> Outcome A.

Definition ret {A} (a : A) : M A := fun s => Ret a s.

Definition bind {A B} (m : M A) (k : A -> M B) : M B :=
  fun s =>
    match m s with
    | Ret a s' => k a s'
    | Panic r s' => Panic r s'
    | Exit c s' => Exit c s'
    end.

Notation "x <- m ;; k" := (bind m (fun x => k))
  (at level 61, m at next level, right associativity).
Notation "m ;; k" := (bind m (fun _ => k))
  (at level 61, right associativity).

Definition panic {A} (reason : string) : M A := fun s => Panic reason s.
Definition os_Exit {A} (code : Z) : M A := fun s => Exit code s.

(** The state an outcome ends in, whichever way it ended. *)
Definition final {A} (o : Outcome A) : State :=
  match o with Ret _ s | Panic _ s | Exit _ s => s end.

Definition self : M KafkaConsumer := fun s => Ret (fst s) s.

Definition update (f : KafkaConsumer -> KafkaConsumer) : M unit :=
  fun s => Ret tt (f (fst s), snd s).

Definition emit (e : Event) : M unit :=
  fun s => Ret tt (fst s, heap_emit [e] (snd s)).

Definition log (lv : Level) (fs : list Field) (t : Text) : M unit :=
  emit (EvLog {| level := lv; fields := fs; text := t |}).

Fixpoint emit_logs (ls : list LogEntry) : M unit :=
  match ls with
  | [] => ret tt
  | l :: rest => emit (EvLog l) ;; emit_logs rest
  end.

(** [time.Now()] *)
Definition time_now : M Z :=
  fun s =>
    let h := snd s in
    Ret (time_Now (ticks h))
        (fst s, {| chans := chans h; ctxs := ctxs h;
                   trace := trace h; ticks := S (ticks h) |}).

(** [make(chan bool)]: a fresh channel, not closed. *)
Definition heap_make_chan (h : Heap) : nat * Heap :=
  (List.length (chans h),
   {| chans := chans h ++ [false]; ctxs := ctxs h;
      trace := trace h; ticks := ticks h |}).

Definition make_chan : M nat :=
  fun s => let (ch, h) := heap_make_chan (snd s) in Ret ch (fst s, h).

(** [close(ch)]: panics on a nil channel and on a closed one. *)
Definition close_chan (ch : option nat) : M unit :=
  fun s =>
    let h := snd s in
    match ch with
    | None => Panic "close of nil channel" s
    | Some i =>
        match nth_error (chans h) i with
        | Some false =>
            Ret tt (fst s, {| chans := set_flag i (chans h); ctxs := ctxs h;
                              trace := trace h; ticks := ticks h |})
        | Some true => Panic "close of closed channel" s
        | None => Panic "close of a channel that was never made" s
        end
    end.

(** [context.WithCancel(context.Background())] *)
Definition context_WithCancel : M nat :=
  fun s =>
    let h := snd s in
    Ret (List.length (ctxs h))
        (fst s, {| chans := chans h; ctxs := ctxs h ++ [false];
                   trace := trace h; ticks := ticks h |}).

(** Calling a [context.CancelFunc]; calling a nil function value panics.
    Cancelling twice is allowed. *)
Definition call_cancel (f : option nat) : M unit :=
  match f with
  | None => panic "invalid memory address or nil pointer dereference"
  | Some i =>
      emit (EvCancel i) ;;
      fun s =>
        let h := snd s in
        Ret tt (fst s, {| chans := chans h; ctxs := set_flag i (ctxs h);
                          trace := trace h; ticks := ticks h |})
  end.

(** [ctx.Err()] *)
Definition ctx_Err (ctx : nat) : M (option error) :=
  fun s =>
    Ret (if nth ctx (ctxs (snd s)) false then Some "context canceled" else None) s.

(** Field updates of the receiver. *)
Definition set_Ready (r : option nat) (c : KafkaConsumer) : KafkaConsumer :=
  {| Configuration := Configuration c; ConsumerGroup := ConsumerGroup c;
     numberOfSuccessfullyConsumedMessages := numberOfSuccessfullyConsumedMessages c;
     numberOfErrorsConsumingMessages := numberOfErrorsConsumingMessages c;
     Verbose := Verbose c; Ready := r; Cancel := Cancel c |}.

Definition set_Cancel (f : option nat) (c : KafkaConsumer) : KafkaConsumer :=
  {| Configuration := Configuration c; ConsumerGroup := ConsumerGroup c;
     numberOfSuccessfullyConsumedMessages := numberOfSuccessfullyConsumedMessages c;
     numberOfErrorsConsumingMessages := numberOfErrorsConsumingMessages c;
     Verbose := Verbose c; Ready := Ready c; Cancel := f |}.

Definition set_ConsumerGroup (g : option sarama.ConsumerGroup) (c : KafkaConsumer)
  : KafkaConsumer :=
  {| Configuration := Configuration c; ConsumerGroup := g;
     numberOfSuccessfullyConsumedMessages := numberOfSuccessfullyConsumedMessages c;
     numberOfErrorsConsumingMessages := numberOfErrorsConsumingMessages c;
     Verbose := Verbose c; Ready := Ready c; Cancel := Cancel c |}.

Definition incr_successes (c : KafkaConsumer) : KafkaConsumer :=
  {| Configuration := Configuration c; ConsumerGroup := ConsumerGroup c;
     numberOfSuccessfullyConsumedMessages :=
       uint64_incr (numberOfSuccessfullyConsumedMessages c);
     numberOfErrorsConsumingMessages := numberOfErrorsConsumingMessages c;
     Verbose := Verbose c; Ready := Ready c; Cancel := Cancel c |}.

Definition incr_errors (c : KafkaConsumer) : KafkaConsumer :=
  {| Configuration := Configuration c; ConsumerGroup := ConsumerGroup c;
     numberOfSuccessfullyConsumedMessages := numberOfSuccessfullyConsumedMessages c;
     numberOfErrorsConsumingMessages :=
       uint64_incr (numberOfErrorsConsumingMessages c);
     Verbose := Verbose c; Ready := Ready c; Cancel := Cancel c |}.

(** ** The methods of [KafkaConsumer] *)

(** The processing function [HandleMessage] calls.  In the program it is
    [ProcessMessage_fn] below; a test replaces it by one that fails. *)
Variable process : Processor.

(** [NewWithSaramaConfig]. The disabled block that would copy
    [brokerCfg.Timeout] into the client configuration is not executed. *)
Definition NewWithSaramaConfig (brokerCfg : BrokerConfiguration)
    (saramaConfig : option sarama.Config) (verbose : bool) (h : Heap)
  : (option KafkaConsumer * option error) * Heap :=
  let saramaConfig :=
    match saramaConfig with
    | None => sarama.set_Version sarama.V0_10_2_0 sarama.NewConfig
    | Some cfg => cfg
    end in
  let h :=
    heap_emit [EvLog {| level := InfoLevel;
                        fields := [FStr "addr" (Address brokerCfg);
                                   FStr "group" (Group brokerCfg)];
                        text := Msg "Configuration" |}] h in
  match sarama.NewConsumerGroup [Address brokerCfg] (Group brokerCfg) saramaConfig with
  | inr err => ((None, Some err), h)
  | inl consumerGroup =>
      let (ready, h) := heap_make_chan h in
      ((Some {| Configuration := brokerCfg;
                ConsumerGroup := Some consumerGroup;
                Verbose := verbose;
                numberOfSuccessfullyConsumedMessages := 0;
                numberOfErrorsConsumingMessages := 0;
                Ready := Some ready;
                Cancel := None |}, None), h)
  end.

(** [NewConsumer]; the package variable [DefaultSaramaConfig] is passed in. *)
Definition NewConsumer (DefaultSaramaConfig : option sarama.Config)
    (brokerCfg : BrokerConfiguration) (verbose : bool) (h : Heap) :=
  NewWithSaramaConfig brokerCfg DefaultSaramaConfig verbose h.

(** [Setup] *)
Definition Setup : M (option error) :=
  log InfoLevel [] (Msg "New session has been setup") ;;
  consumer <- self ;;
  close_chan (Ready consumer) ;;
  ret None.

(** [Cleanup] *)
Definition Cleanup : M (option error) :=
  log InfoLevel [] (Msg "New session has been finished") ;;
  ret None.

(** [GetNumberOfSuccessfullyConsumedMessages] *)
Definition GetNumberOfSuccessfullyConsumedMessages (consumer : KafkaConsumer) : Z :=
  numberOfSuccessfullyConsumedMessages consumer.

(** [GetNumberOfErrorsConsumingMessages] *)
Definition GetNumberOfErrorsConsumingMessages (consumer : KafkaConsumer) : Z :=
  numberOfErrorsConsumingMessages consumer.

(** Calling a processing function on a message that is not nil. *)
Definition run_processor (p : Processor) (msg : sarama.ConsumerMessage)
  : M (option error) :=
  consumer <- self ;;
  emit (EvProcessMessage msg) ;;
  emit_logs (fst (p (Verbose consumer) msg)) ;;
  ret (snd (p (Verbose consumer) msg)).

(** [ProcessMessage], from the receiver's [Verbose] and the message. *)
Definition ProcessMessage_fn : Processor :=
  fun verbose msg =>
    let value := sarama.Value msg in
    ({| level := InfoLevel;
        fields := [FInt "length" (Z.of_nat (List.length value))];
        text := Msg "Message length" |}
     :: (if verbose
         then [{| level := InfoLevel;
                  fields := [FStr "content" (string_of_list_byte value)];
                  text := Msg "Message value" |}]
         else []),
     None).

(** [ProcessMessage] as a method: reading [msg.Value] of a nil message
    panics. *)
Definition ProcessMessage (msg : option sarama.ConsumerMessage) : M (option error) :=
  match msg with
  | None => panic "invalid memory address or nil pointer dereference"
  | Some m => run_processor ProcessMessage_fn m
  end.

(** [HandleMessage] *)
Definition HandleMessage (msg : option sarama.ConsumerMessage) : M unit :=
  emit (EvHandleMessage msg) ;;
  match msg with
  | None => log ErrorLevel [] (Msg "nil message")
  | Some m =>
      log InfoLevel
          [FInt64 offsetKey (sarama.Offset m);
           FInt32 partitionKey (sarama.Partition m);
           FStr topicKey (sarama.Topic m);
           FTime "message_timestamp" (sarama.Timestamp m)]
          (Msg "Started processing message") ;;
      startTime <- time_now ;;
      err <- run_processor process m ;;
      timeAfterProcessingMessage <- time_now ;;
      let messageProcessingDuration := timeAfterProcessingMessage - startTime in
      (match err with
       | Some e =>
           log ErrorLevel [FErr e] (Msg "Error processing message consumed from Kafka") ;;
           update incr_errors
       | None => update incr_successes
       end) ;;
      consumer <- self ;;
      log InfoLevel
          [FStr topicKey (Topic (Configuration consumer));
           FStr groupKey (Group (Configuration consumer));
           FInt64 offsetKey (sarama.Offset m);
           FInt32 partitionKey (sarama.Partition m);
           FStr topicKey (sarama.Topic m);
           FUint64 "consumed messages" (numberOfSuccessfullyConsumedMessages consumer);
           FUint64 "errors" (numberOfErrorsConsumingMessages consumer)]
          (Msgf "Processing of message took '%v' seconds" messageProcessingDuration)
  end.

(** Writing a counter. *)
Definition set_successes (n : Z) (c : KafkaConsumer) : KafkaConsumer :=
  {| Configuration := Configuration c; ConsumerGroup := ConsumerGroup c;
     numberOfSuccessfullyConsumedMessages := n;
     numberOfErrorsConsumingMessages := numberOfErrorsConsumingMessages c;
     Verbose := Verbose c; Ready := Ready c; Cancel := Cancel c |}.

Definition set_errors (n : Z) (c : KafkaConsumer) : KafkaConsumer :=
  {| Configuration := Configuration c; ConsumerGroup := ConsumerGroup c;
     numberOfSuccessfullyConsumedMessages := numberOfSuccessfullyConsumedMessages c;
     numberOfErrorsConsumingMessages := n;
     Verbose := Verbose c; Ready := Ready c; Cancel := Cancel c |}.

(** The counters are plain [uint64] fields and [HandleMessage] takes no
    lock, so its [++] is a read of the field followed by a write of the
    value read plus one, and another goroutine can run in between.
    [HandleMessage_reads] is [HandleMessage] on a message that is not nil up
    to that point: the goroutine holds the result of processing, the elapsed
    time and the value it read.  [HandleMessage_writes] is the rest. *)
Definition HandleMessage_reads (m : sarama.ConsumerMessage)
  : M (option error * Z * Z) :=
  emit (EvHandleMessage (Some m)) ;;
  log InfoLevel
      [FInt64 offsetKey (sarama.Offset m);
       FInt32 partitionKey (sarama.Partition m);
       FStr topicKey (sarama.Topic m);
       FTime "message_timestamp" (sarama.Timestamp m)]
      (Msg "Started processing message") ;;
  startTime <- time_now ;;
  err <- run_processor process m ;;
  timeAfterProcessingMessage <- time_now ;;
  let messageProcessingDuration := timeAfterProcessingMessage - startTime in
  match err with
  | Some e =>
      log ErrorLevel [FErr e] (Msg "Error processing message consumed from Kafka") ;;
      consumer <- self ;;
      ret (err, messageProcessingDuration,
           numberOfErrorsConsumingMessages consumer)
  | None =>
      consumer <- self ;;
      ret (err, messageProcessingDuration,
           numberOfSuccessfullyConsumedMessages consumer)
  end.

Definition HandleMessage_writes (m : sarama.ConsumerMessage)
    (held : option error * Z * Z) : M unit :=
  (match fst (fst held) with
   | Some _ => update (set_errors (uint64_incr (snd held)))
   | None => update (set_successes (uint64_incr (snd held)))
   end) ;;
  consumer <- self ;;
  log InfoLevel
      [FStr topicKey (Topic (Configuration consumer));
       FStr groupKey (Group (Configuration consumer));
       FInt64 offsetKey (sarama.Offset m);
       FInt32 partitionKey (sarama.Partition m);
       FStr topicKey (sarama.Topic m);
       FUint64 "consumed messages" (numberOfSuccessfullyConsumedMessages consumer);
       FUint64 "errors" (numberOfErrorsConsumingMessages consumer)]
      (Msgf "Processing of message took '%v' seconds" (snd (fst held))).

(** [session.MarkMessage(message, metadata)] *)
Definition MarkMessage (msg : option sarama.ConsumerMessage) (metadata : string)
  : M unit :=
  emit (EvMarkMessage msg metadata).

(** The loop of [ConsumeClaim] over the messages the claim yields. *)
Fixpoint messages_loop (msgs : list (option sarama.ConsumerMessage)) : M unit :=
  match msgs with
  | [] => ret tt
  | message :: rest =>
      HandleMessage message ;;
      MarkMessage message "" ;;
      messages_loop rest
  end.

(** [ConsumeClaim] *)
Definition ConsumeClaim (claim : sarama.ConsumerGroupClaim) : M (option error) :=
  log InfoLevel [FInt64 offsetKey (sarama.InitialOffset claim)]
      (Msg "Starting messages loop") ;;
  messages_loop (sarama.Messages claim) ;;
  ret None.

(** [Close] *)
Definition Close : M (option error) :=
  consumer <- self ;;
  (match Cancel consumer with
   | Some _ => call_cancel (Cancel consumer)
   | None => ret tt
   end) ;;
  consumer <- self ;;
  (match ConsumerGroup consumer with
   | Some g =>
       emit EvGroupClose ;;
       update (set_ConsumerGroup (Some (fst (sarama.ConsumerGroup_Close g)))) ;;
       match snd (sarama.ConsumerGroup_Close g) with
       | Some err => log ErrorLevel [FErr err] (Msg "Unable to close consumer group")
       | None => ret tt
       end
   | None => ret tt
   end) ;;
  ret None.

(** ** The session driver of [Serve] *)

(** What happens while one call of [ConsumerGroup.Consume] is blocked: the
    library calls back into the consumer, and another goroutine may call
    [Close]. *)
Inductive Callback :=
| OnSetup
| OnConsumeClaim (claim : sarama.ConsumerGroupClaim)
| OnCleanup
| OnClose.

(** One call of [Consume] that returns: what happened meanwhile, and the
    error it returns. *)
Record ConsumeCall := {
  callbacks : list Callback;
  result : option error
}.

Definition run_callback (cb : Callback) : M unit :=
  match cb with
  | OnSetup => Setup ;; ret tt
  | OnConsumeClaim claim => ConsumeClaim claim ;; ret tt
  | OnCleanup => Cleanup ;; ret tt
  | OnClose => Close ;; ret tt
  end.

Fixpoint run_callbacks (cbs : list Callback) : M unit :=
  match cbs with
  | [] => ret tt
  | cb :: rest => run_callback cb ;; run_callbacks rest
  end.

(** Entering [consumer.ConsumerGroup.Consume(ctx, topics, consumer)]. *)
Definition Consume_enter (topics : list string) : M unit :=
  consumer <- self ;;
  match ConsumerGroup consumer with
  | None => panic "invalid memory address or nil pointer dereference"
  | Some _ => emit (EvConsume topics)
  end.

(** A call of [Consume] that returns. *)
Definition Consume (topics : list string) (call : ConsumeCall) : M (option error) :=
  Consume_enter topics ;;
  run_callbacks (callbacks call) ;;
  ret (result call).

(** Where the driver goroutine is when the calls of [Consume] that return
    have been used up: it has returned, or it is inside the next call. *)
Inductive Driver := Stopped | InsideConsume.

(** The body of the driver's loop from the point where [Consume] has
    returned [err]; [true] when the loop goes round again. *)
Definition after_Consume (ctx : nat) (err : option error) : M bool :=
  (match err with
   | Some err =>
       log FatalLevel [FErr err] (Msg "Unable to recreate Kafka session") ;;
       os_Exit 1
   | None => ret tt
   end) ;;
  cancelled <- ctx_Err ctx ;;
  match cancelled with
  | Some err =>
      log InfoLevel [FErr err] (Msg "Stopping consumer") ;;
      ret false
  | None =>
      log InfoLevel [] (Msg "Created new kafka session") ;;
      ready <- make_chan ;;
      update (set_Ready (Some ready)) ;;
      ret true
  end.

(** The goroutine of [Serve]: the loop around [Consume], run against the
    calls of [Consume] that return, in order. *)
Fixpoint driver_loop (ctx : nat) (script : list ConsumeCall) : M Driver :=
  consumer <- self ;;
  match script with
  | [] =>
      Consume_enter [Topic (Configuration consumer)] ;;
      ret InsideConsume
  | call :: rest =>
      err <- Consume [Topic (Configuration consumer)] call ;;
      again <- after_Consume ctx err ;;
      if again then driver_loop ctx rest else ret Stopped
  end.

(** [Serve]: the cancellable context is created and its cancellation handle
    stored, then the goroutine runs.  The calling thread only waits (for the
    ready signal, then for the context), logs, and cancels the context once
    more when it is done; that part is left out. *)
Definition Serve (script : list ConsumeCall) : M Driver :=
  ctx <- context_WithCancel ;;
  update (set_Cancel (Some ctx)) ;;
  driver_loop ctx script.

(** ** Operations on a consumer, for statements about all of them *)

Inductive Op :=
| OpServe (script : list ConsumeCall)
| OpSetup
| OpCleanup
| OpConsumeClaim (claim : sarama.ConsumerGroupClaim)
| OpHandleMessage (msg : option sarama.ConsumerMessage)
| OpProcessMessage (msg : option sarama.ConsumerMessage)
| OpClose
| OpGetNumberOfSuccessfullyConsumedMessages
| OpGetNumberOfErrorsConsumingMessages.

(** What an operation returns to its caller. *)
Inductive Returned :=
| VUnit
| VError (e : option error)
| VUint64 (n : Z)
| VDriver (d : Driver).

Definition run_op (op : Op) : M Returned :=
  match op with
  | OpServe script => d <- Serve script ;; ret (VDriver d)
  | OpSetup => e <- Setup ;; ret (VError e)
  | OpCleanup => e <- Cleanup ;; ret (VError e)
  | OpConsumeClaim claim => e <- ConsumeClaim claim ;; ret (VError e)
  | OpHandleMessage msg => HandleMessage msg ;; ret VUnit
  | OpProcessMessage msg => e <- ProcessMessage msg ;; ret (VError e)
  | OpClose => e <- Close ;; ret (VError e)
  | OpGetNumberOfSuccessfullyConsumedMessages =>
      consumer <- self ;;
      ret (VUint64 (GetNumberOfSuccessfullyConsumedMessages consumer))
  | OpGetNumberOfErrorsConsumingMessages =>
      consumer <- self ;;
      ret (VUint64 (GetNumberOfErrorsConsumingMessages consumer))
  end.

(** A run of operations; it ends early when one panics or halts the
    process. *)
Fixpoint run_ops (ops : list Op) : M (list Returned) :=
  match ops with
  | [] => ret []
  | op :: rest =>
      v <- run_op op ;;
      vs <- run_ops rest ;;
      ret (v :: vs)
  end.

End Consumer.

Arguments Ret {L A} a s.
Arguments Panic {L A} reason s.
Arguments Exit {L A} code s.

(** ** Measures and projections used in the statements *)

Definition non_nil (msg : option sarama.ConsumerMessage) : bool :=
  match msg with Some _ => true | None => false end.

(** Does the processing function report an error on this message? *)
Definition fails (p : Processor) (verbose : bool)
    (msg : option sarama.ConsumerMessage) : bool :=
  match msg with
  | Some m => match snd (p verbose m) with Some _ => true | None => false end
  | None => false
  end.

Definition succeeds (p : Processor) (verbose : bool)
    (msg : option sarama.ConsumerMessage) : bool :=
  match msg with
  | Some m => match snd (p verbose m) with Some _ => false | None => true end
  | None => false
  end.

(** The number of messages that are not nil, and of those among them on
    which processing fails, or succeeds. *)
Definition delivered (msgs : list (option sarama.ConsumerMessage)) : nat :=
  List.length (filter non_nil msgs).

Definition failures (p : Processor) (verbose : bool)
    (msgs : list (option sarama.ConsumerMessage)) : nat :=
  List.length (filter (fails p verbose) msgs).

Definition successes (p : Processor) (verbose : bool)
    (msgs : list (option sarama.ConsumerMessage)) : nat :=
  List.length (filter (succeeds p verbose) msgs).

(** The two steps of the claim loop, as they show in a trace. *)
Definition is_claim_step (e : Event) : bool :=
  match e with
  | EvHandleMessage _ | EvMarkMessage _ _ => true
  | _ => false
  end.

Definition claim_steps (msgs : list (option sarama.ConsumerMessage)) : list Event :=
  flat_map (fun m => [EvHandleMessage m; EvMarkMessage m ""]) msgs.

Definition is_ProcessMessage (e : Event) : bool :=
  match e with EvProcessMessage _ => true | _ => false end.

Definition is_Consume (e : Event) : bool :=
  match e with EvConsume _ => true | _ => false end.

Definition is_GroupClose (e : Event) : bool :=
  match e with EvGroupClose => true | _ => false end.

(** The payload lengths logged, in order. *)
Definition logged_lengths (evs : list Event) : list Z :=
  flat_map (fun e =>
              match e with
              | EvLog {| level := InfoLevel;
                         fields := [FInt "length" n];
                         text := Msg "Message length" |} => [n]
              | _ => []
              end) evs.

(** The payloads logged as text, in order. *)
Definition logged_contents (evs : list Event) : list string :=
  flat_map (fun e =>
              match e with
              | EvLog {| level := InfoLevel;
                         fields := [FStr "content" v];
                         text := Msg "Message value" |} => [v]
              | _ => []
              end) evs.

(** How many messages an operation can hand to [HandleMessage]. *)
Definition messages_in_callback (cb : Callback) : nat :=
  match cb with
  | OnConsumeClaim claim => List.length (sarama.Messages claim)
  | _ => O
  end.

Definition messages_in_call (call : ConsumeCall) : nat :=
  list_sum (map messages_in_callback (callbacks call)).

Definition messages_in_op (op : Op) : nat :=
  match op with
  | OpServe script => list_sum (map messages_in_call script)
  | OpConsumeClaim claim => List.length (sarama.Messages claim)
  | OpHandleMessage _ => 1%nat
  | _ => O
  end.

Definition messages_in (ops : list Op) : nat :=
  list_sum (map messages_in_op ops).

(** The same consumer with another timeout in its configuration. *)
Definition retime {L : sarama.Library} (t : Z) (c : KafkaConsumer) : KafkaConsumer :=
  {| Configuration := set_Timeout t (Configuration c);
     ConsumerGroup := ConsumerGroup c;
     numberOfSuccessfullyConsumedMessages := numberOfSuccessfullyConsumedMessages c;
     numberOfErrorsConsumingMessages := numberOfErrorsConsumingMessages c;
     Verbose := Verbose c; Ready := Ready c; Cancel := Cancel c |}.

Definition outcome_map {L : sarama.Library} {A}
    (f : KafkaConsumer -> KafkaConsumer) (o : Outcome A) : Outcome A :=
  match o with
  | Ret a s => Ret a (f (fst s), snd s)
  | Panic r s => Panic r (f (fst s), snd s)
  | Exit c s => Exit c (f (fst s), snd s)
  end.

(** What [HandleMessage] does to the counters, given the result of
    processing. *)
Definition count_result {L : sarama.Library} (err : option error)
    (c : KafkaConsumer) : KafkaConsumer :=
  match err with
  | Some _ => incr_errors c
  | None => incr_successes c
  end.

(** The consumer after [a] more successes and [b] more errors have been
    counted. *)
Definition bump {L : sarama.Library} (a b : nat) (c : KafkaConsumer) : KafkaConsumer :=
  {| Configuration := Configuration c; ConsumerGroup := ConsumerGroup c;
     numberOfSuccessfullyConsumedMessages :=
       Nat.iter a uint64_incr (numberOfSuccessfullyConsumedMessages c);
     numberOfErrorsConsumingMessages :=
       Nat.iter b uint64_incr (numberOfErrorsConsumingMessages c);
     Verbose := Verbose c; Ready := Ready c; Cancel := Cancel c |}.

(** The log entry of [Close] for an error of closing the client. *)
Definition close_error_log (err : error) : Event :=
  EvLog {| level := ErrorLevel; fields := [FErr err];
           text := Msg "Unable to close consumer group" |}.

(** The log entries of the driver. *)
Definition fatal_log (err : error) : Event :=
  EvLog {| level := FatalLevel; fields := [FErr err];
           text := Msg "Unable to recreate Kafka session" |}.

Definition stopping_log : Event :=
  EvLog {| level := InfoLevel; fields := [FErr "context canceled"];
           text := Msg "Stopping consumer" |}.

Definition created_log : Event :=
  EvLog {| level := InfoLevel; fields := [];
           text := Msg "Created new kafka session" |}.

(** Is the context cancelled, is the channel there and not closed? *)
Definition cancelled (ctx : nat) (h : Heap) : bool := nth ctx (ctxs h) false.

Definition unfired (ch : nat) (h : Heap) : Prop := nth_error (chans h) ch = Some false.

(** The state with which the driver goes round again: the session is
    logged, and [Ready] is a channel made just now. *)
Definition round_again {L : sarama.Library} (s : State) : State :=
  (set_Ready (Some (List.length (chans (snd s)))) (fst s),
   {| chans := chans (snd s) ++ [false]; ctxs := ctxs (snd s);
      trace := trace (snd s) ++ [created_log]; ticks := ticks (snd s) |}).



(** [grows n s s']: from [s] to [s'] the counters have only been
    incremented, at most [n] times in all; the configuration and the verbose
    flag are the same, and a consumer-group client, if there was one, is
    still there. *)
Definition grows {L : sarama.Library} (n : nat) (s s' : State) : Prop :=
  exists a b : nat,
    (a + b <= n)%nat
    /\ numberOfSuccessfullyConsumedMessages (fst s') =
         Nat.iter a uint64_incr (numberOfSuccessfullyConsumedMessages (fst s))
    /\ numberOfErrorsConsumingMessages (fst s') =
         Nat.iter b uint64_incr (numberOfErrorsConsumingMessages (fst s))
    /\ Configuration (fst s') = Configuration (fst s)
    /\ Verbose (fst s') = Verbose (fst s)
    /\ (ConsumerGroup (fst s) <> None -> ConsumerGroup (fst s') <> None).

(** A computation all of whose runs, however they end, satisfy [grows n]. *)
Definition Grows {L : sarama.Library} {A} (n : nat) (m : M A) : Prop :=
  forall s, grows n s (final (m s)).

(** A computation that cannot tell which timeout the configuration holds:
    run on the consumer with another timeout, it ends the same way, with the
    same value, heap and trace, and the same consumer but for the timeout. *)
Definition Oblivious {L : sarama.Library} {A} (m : M A) : Prop :=
  forall t c h, m (retime t c, h) = outcome_map (retime t) (m (c, h)).

(** Two results of a constructor that agree on everything but the timeout
    stored in the consumer. *)
Definition same_but_Timeout {L : sarama.Library} (t : Z)
    (r1 r2 : option KafkaConsumer * option error * Heap) : Prop :=
  snd r2 = snd r1
  /\ snd (fst r2) = snd (fst r1)
  /\ fst (fst r2) = option_map (retime t) (fst (fst r1)).

(** The events [ProcessMessage] adds for a message. *)
Definition ProcessMessage_events (verbose : bool) (m : sarama.ConsumerMessage)
  : list Event :=
  [EvProcessMessage m;
   EvLog {| level := InfoLevel;
            fields := [FInt "length" (Z.of_nat (List.length (sarama.Value m)))];
            text := Msg "Message length" |}]
  ++ (if verbose
      then [EvLog {| level := InfoLevel;
                     fields := [FStr "content"
                                  (string_of_list_byte (sarama.Value m))];
                     text := Msg "Message value" |}]
      else []).

(** ** A stand-in client and sample inputs, for running the consumer *)

Module Sample.

(** A client whose group can always be created, and whose [Close] reports
    an error when the group was closed before. *)
Definition library : sarama.Library :=
  {| sarama.NewConfig :=
       {| sarama.Version := (1, 0, 0, 0); sarama.DialTimeout := 30;
          sarama.ReadTimeout := 30; sarama.WriteTimeout := 30 |};
     sarama.ConsumerGroup := bool;
     sarama.NewConsumerGroup := fun _ _ _ => inl false;
     sarama.ConsumerGroup_Close := fun closed =>
       (true,
        if closed
        then Some "kafka: tried to use a consumer group that was closed"
        else None) |}.

(** A client whose [Close] always reports an error. *)
Definition failing_close : sarama.Library :=
  {| sarama.NewConfig := sarama.NewConfig (Library := library);
     sarama.ConsumerGroup := bool;
     sarama.NewConsumerGroup := fun _ _ _ => inl false;
     sarama.ConsumerGroup_Close := fun _ => (true, Some "broker unreachable") |}.

Definition clock (n : nat) : Z := 1000 * Z.of_nat n.

Definition brokerCfg : BrokerConfiguration :=
  {| Address := "localhost:9092"; Topic := "ccx"; Group := "g1"; Timeout := 0 |}.

Definition message (offset : Z) (payload : string) : sarama.ConsumerMessage :=
  {| sarama.Timestamp := 0; sarama.Value := list_byte_of_string payload;
     sarama.Topic := "ccx"; sarama.Partition := 0; sarama.Offset := offset |}.

(** A processing function made to fail on the messages at some offsets. *)
Definition fail_at (offsets : list Z) : Processor :=
  fun _ m =>
    ([], if existsb (Z.eqb (sarama.Offset m)) offsets
         then Some "induced failure" else None).

(** The consumer [NewWithSaramaConfig] builds for [brokerCfg] on an empty
    heap, and that heap. *)
Definition consumer (L : sarama.Library) (g : sarama.ConsumerGroup)
    (verbose : bool) : KafkaConsumer :=
  {| Configuration := brokerCfg; ConsumerGroup := Some g;
     numberOfSuccessfullyConsumedMessages := 0;
     numberOfErrorsConsumingMessages := 0;
     Verbose := verbose; Ready := Some O; Cancel := None |}.

Definition heap : Heap :=
  {| chans := [false]; ctxs := [];
     trace := [EvLog {| level := InfoLevel;
                        fields := [FStr "addr" "localhost:9092";
                                   FStr "group" "g1"];
                        text := Msg "Configuration" |}];
     ticks := O |}.

Definition claim (msgs : list (option sarama.ConsumerMessage))
  : sarama.ConsumerGroupClaim :=
  {| sarama.InitialOffset := 0; sarama.Messages := msgs |}.

(** The same consumer and heap once [Serve] has stored the cancellation
    handle of its context. *)
Definition serving (L : sarama.Library) (g : sarama.ConsumerGroup)
    (verbose : bool) : KafkaConsumer :=
  set_Cancel (Some O) (consumer L g verbose).

Definition serving_heap : Heap :=
  {| chans := chans heap; ctxs := [false]; trace := trace heap; ticks := O |}.

(** One generation: the session is set up, a claim delivers one message,
    the session is cleaned up, and [Consume] returns [result]. *)
Definition generation (result : option error) : ConsumeCall :=
  {| callbacks := [OnSetup;
                   OnConsumeClaim (claim [Some (message 0 "a")]);
                   OnCleanup];
     result := result |}.

(** [Close] is called while [Consume] is blocked, and [Consume] returns
    the error of the cancelled context. *)
Definition closed_meanwhile : ConsumeCall :=
  {| callbacks := [OnSetup; OnClose]; result := Some "context canceled" |}.

End Sample.

(** ** Relations and log entries for the lifecycle *)

(** A computation all of whose runs, however they end, relate the state
    they start in to the state they end in by [R]. *)
Definition Keeps {L : sarama.Library} {A} (R : State -> State -> Prop)
    (m : M A) : Prop :=
  forall s, R s (final (m s)).

(** What the callbacks and [Close] leave alone: the cancellation handle
    and the set of contexts; and a cancelled context stays cancelled. *)
Definition lifecycle {L : sarama.Library} (s s' : State) : Prop :=
  Cancel (fst s') = Cancel (fst s)
  /\ List.length (ctxs (snd s')) = List.length (ctxs (snd s))
  /\ forall i, cancelled i (snd s) = true -> cancelled i (snd s') = true.

(** Every operation but [Serve]. *)
Definition not_Serve (op : Op) : bool :=
  match op with OpServe _ => false | _ => true end.


(** The log entries of [HandleMessage] and [Setup]. *)
Definition processing_error_log (err : error) : Event :=
  EvLog {| level := ErrorLevel; fields := [FErr err];
           text := Msg "Error processing message consumed from Kafka" |}.

Definition summary_log {L : sarama.Library} (consumer : KafkaConsumer)
    (msg : sarama.ConsumerMessage) (elapsed : Z) : Event :=
  EvLog {| level := InfoLevel;
           fields :=
             [FStr topicKey (Topic (Configuration consumer));
              FStr groupKey (Group (Configuration consumer));
              FInt64 offsetKey (sarama.Offset msg);
              FInt32 partitionKey (sarama.Partition msg);
              FStr topicKey (sarama.Topic msg);
              FUint64 "consumed messages"
                (numberOfSuccessfullyConsumedMessages consumer);
              FUint64 "errors" (numberOfErrorsConsumingMessages consumer)];
           text := Msgf "Processing of message took '%v' seconds" elapsed |}.

Definition setup_log : Event :=
  EvLog {| level := InfoLevel; fields := [];
           text := Msg "New session has been setup" |}.

Definition configuration_log (brokerCfg : BrokerConfiguration) : Event :=
  EvLog {| level := InfoLevel;
           fields := [FStr "addr" (Address brokerCfg);
                      FStr "group" (Group brokerCfg)];
           text := Msg "Configuration" |}.

(** The client configuration the constructor hands to the library. *)
Definition client_config {L : sarama.Library} (saramaConfig : option sarama.Config)
  : sarama.Config :=
  match saramaConfig with
  | None => sarama.set_Version sarama.V0_10_2_0 sarama.NewConfig
  | Some cfg => cfg
  end.

(** ** The program's own processing function *)

(** The error counter is what it was. *)
Definition same_errors {L : sarama.Library} (s s' : State) : Prop :=
  numberOfErrorsConsumingMessages (fst s')
  = numberOfErrorsConsumingMessages (fst s).

(** The entry [ProcessMessage] logs only when the consumer is verbose. *)
Definition is_content_log (e : Event) : bool :=
  match e with
  | EvLog {| level := InfoLevel;
             fields := [FStr "content" _];
             text := Msg "Message value" |} => true
  | _ => false
  end.

(** A trace without those entries. *)
Definition mute (evs : list Event) : list Event :=
  filter (fun e => negb (is_content_log e)) evs.

Definition set_Verbose {L : sarama.Library} (v : bool) (c : KafkaConsumer)
  : KafkaConsumer :=
  {| Configuration := Configuration c; ConsumerGroup := ConsumerGroup c;
     numberOfSuccessfullyConsumedMessages := numberOfSuccessfullyConsumedMessages c;
     numberOfErrorsConsumingMessages := numberOfErrorsConsumingMessages c;
     Verbose := v; Ready := Ready c; Cancel := Cancel c |}.

(** The same state, of a consumer that is not verbose and has logged no
    payload. *)
Definition hush {L : sarama.Library} (s : State) : State :=
  (set_Verbose false (fst s),
   {| chans := chans (snd s); ctxs := ctxs (snd s);
      trace := mute (trace (snd s)); ticks := ticks (snd s) |}).

Definition outcome_hush {L : sarama.Library} {A} (o : Outcome A) : Outcome A :=
  match o with
  | Ret a s => Ret a (hush s)
  | Panic r s => Panic r (hush s)
  | Exit code s => Exit code (hush s)
  end.

(** A computation that, run by the consumer that is not verbose, does what
    it does for the verbose one, less the payload entries. *)
Definition Hushed {L : sarama.Library} {A} (m : M A) : Prop :=
  forall s, m (hush s) = outcome_hush (m s).

(** A message of another partition, which another claim loop handles. *)
Definition sample_message_of (partition offset : Z) (payload : string)
  : sarama.ConsumerMessage :=
  {| sarama.Timestamp := 0; sarama.Value := list_byte_of_string payload;
     sarama.Topic := "ccx"; sarama.Partition := partition;
     sarama.Offset := offset |}.

(** A consumer with given counters, for running [ConsumeClaim] where a
    counter wraps around. *)
Definition sample_counting (successes errors : Z) : KafkaConsumer :=
  {| Configuration := Sample.brokerCfg;
     ConsumerGroup := Some (false : sarama.ConsumerGroup (Library := Sample.library));
     numberOfSuccessfullyConsumedMessages := successes;
     numberOfErrorsConsumingMessages := errors;
     Verbose := false; Ready := Some O; Cancel := None |}.

(** * Properties *)

Section Properties.

Context {L : sarama.Library}.
Variable time_Now : nat -> Z.
Variable process : Processor.

(** ** The trace and the heap *)

Lemma heap_emit_nil (h : Heap) : heap_emit [] h = h.
Proof. destruct h; unfold heap_emit; simpl. now rewrite app_nil_r. Qed.

Lemma heap_emit_app (a b : list Event) (h : Heap) :
  heap_emit b (heap_emit a h) = heap_emit (a ++ b) h.
Proof. unfold heap_emit; simpl. now rewrite app_assoc. Qed.

Lemma emit_logs_run (ls : list LogEntry) (c : KafkaConsumer) (h : Heap) :
  emit_logs ls (c, h) = Ret tt (c, heap_emit (map EvLog ls) h).
Proof.
  revert h. induction ls as [|l ls IH]; intro h; simpl.
  - now rewrite heap_emit_nil.
  - unfold bind, emit; simpl. rewrite IH, heap_emit_app. reflexivity.
Qed.

Lemma filter_map_EvLog (f : Event -> bool) (ls : list LogEntry) :
  (forall l, f (EvLog l) = false) -> filter f (map EvLog ls) = [].
Proof.
  intro Hf. induction ls as [|l ls IH]; simpl; [reflexivity|].
  now rewrite Hf.
Qed.

(** ** [HandleMessage] *)

(** A message that is not nil: the counters record the result of processing,
    nothing else of the consumer changes, and the events added after the
    entry to [HandleMessage] are log entries and the call of the processing
    function. *)
Lemma HandleMessage_Some (m : sarama.ConsumerMessage) (c : KafkaConsumer) (h : Heap) :
  exists evs n,
    HandleMessage time_Now process (Some m) (c, h) =
      Ret tt (count_result (snd (process (Verbose c) m)) c,
              {| chans := chans h; ctxs := ctxs h;
                 trace := trace h ++ EvHandleMessage (Some m) :: evs;
                 ticks := n |})
    /\ filter is_claim_step evs = []
    /\ filter is_ProcessMessage evs = [EvProcessMessage m].
Proof.
  unfold HandleMessage, run_processor, bind, emit, log, emit, self, time_now,
    update, ret; simpl.
  rewrite emit_logs_run; simpl.
  destruct (snd (process (Verbose c) m)) as [e|]; simpl;
    eexists; eexists; (split; [unfold heap_emit; simpl;
      repeat rewrite <- app_assoc; simpl; reflexivity|]);
    simpl; rewrite !filter_app, !filter_map_EvLog by reflexivity;
    split; reflexivity.
Qed.

Lemma HandleMessage_nil (c : KafkaConsumer) (h : Heap) :
  HandleMessage time_Now process None (c, h) =
    Ret tt (c, heap_emit [EvHandleMessage None;
                          EvLog {| level := ErrorLevel; fields := [];
                                   text := Msg "nil message" |}] h).
Proof.
  unfold HandleMessage, bind, log, emit; simpl.
  now rewrite heap_emit_app.
Qed.

(** ** Counting with [uint64] *)

Lemma uint64_iter_incr_mod (n : nat) (x : Z) :
  0 <= x < uint64_modulus ->
  Nat.iter n uint64_incr x = (x + Z.of_nat n) mod uint64_modulus.
Proof.
  intro Hx. induction n as [|n IH].
  - simpl. rewrite Z.add_0_r. symmetry. now apply Z.mod_small.
  - rewrite Nat.iter_succ, IH. unfold uint64_incr.
    rewrite Zplus_mod_idemp_l. f_equal. lia.
Qed.

Lemma uint64_iter_incr (n : nat) (x : Z) :
  0 <= x -> x + Z.of_nat n < uint64_modulus ->
  Nat.iter n uint64_incr x = x + Z.of_nat n.
Proof.
  intros Hx Hn. rewrite uint64_iter_incr_mod by lia.
  apply Z.mod_small. lia.
Qed.

Lemma bump_0_0 (c : KafkaConsumer) : bump 0 0 c = c.
Proof. now destruct c. Qed.

Lemma bump_bump (a b a' b' : nat) (c : KafkaConsumer) :
  bump a' b' (bump a b c) = bump (a' + a) (b' + b) c.
Proof. unfold bump; simpl. now rewrite !Nat.iter_add. Qed.

Lemma count_result_bump (err : option error) (c : KafkaConsumer) :
  count_result err c =
    bump (match err with Some _ => 0 | None => 1 end)
         (match err with Some _ => 1 | None => 0 end) c.
Proof. destruct err; reflexivity. Qed.

Lemma successes_failures (p : Processor) (verbose : bool)
    (msgs : list (option sarama.ConsumerMessage)) :
  (successes p verbose msgs + failures p verbose msgs = delivered msgs)%nat.
Proof.
  unfold successes, failures, delivered.
  induction msgs as [|[m|] msgs IH]; simpl; auto.
  destruct (snd (p verbose m)); simpl; lia.
Qed.

(** ** The claim loop *)

(** The loop returns; it counts one success or one error for each message
    that is not nil; the channels and contexts are as before; and among the
    events it adds, the entries to [HandleMessage] and the marks are those of
    the messages, in order, each entry followed by its mark. *)
Lemma messages_loop_run (msgs : list (option sarama.ConsumerMessage))
    (c : KafkaConsumer) (h : Heap) :
  exists evs n,
    messages_loop time_Now process msgs (c, h) =
      Ret tt (bump (successes process (Verbose c) msgs)
                   (failures process (Verbose c) msgs) c,
              {| chans := chans h; ctxs := ctxs h;
                 trace := trace h ++ evs; ticks := n |})
    /\ filter is_claim_step evs = claim_steps msgs.
Proof.
  revert c h. induction msgs as [|msg msgs IH]; intros c h.
  - exists [], (ticks h). simpl. split; [|reflexivity].
    unfold ret. rewrite bump_0_0, app_nil_r. now destruct h.
  - cbn [messages_loop]. unfold bind at 1.
    destruct msg as [m|].
    + destruct (HandleMessage_Some m c h) as (evs & n & -> & Hsteps & _).
      unfold bind at 1, MarkMessage, emit; cbn [fst snd heap_emit trace chans ctxs ticks].
      match goal with |- context [messages_loop _ _ _ (?c1, ?h1)] =>
        destruct (IH c1 h1) as (evs' & n' & -> & Hsteps') end.
      cbn [chans ctxs trace ticks].
      exists (EvHandleMessage (Some m) :: evs ++ [EvMarkMessage (Some m) ""] ++ evs'), n'.
      split.
      * rewrite count_result_bump, bump_bump.
        replace (Verbose (bump _ _ c)) with (Verbose c) by reflexivity.
        unfold successes, failures; simpl.
        destruct (snd (process (Verbose c) m)); simpl;
          rewrite ?Nat.add_0_r, ?Nat.add_1_r;
          repeat (f_equal; try (now rewrite <- !app_assoc)).
      * simpl. rewrite filter_app, Hsteps. simpl. now rewrite Hsteps'.
    + rewrite HandleMessage_nil.
      unfold bind at 1, MarkMessage, emit; cbn [fst snd].
      rewrite heap_emit_app.
      match goal with |- context [messages_loop _ _ _ (?c1, ?h1)] =>
        destruct (IH c1 h1) as (evs' & n' & -> & Hsteps') end.
      cbn [heap_emit chans ctxs trace ticks].
      eexists; exists n'. split.
      * rewrite <- app_assoc. reflexivity.
      * rewrite filter_app, Hsteps'. reflexivity.
Qed.

Lemma ConsumeClaim_run (claim : sarama.ConsumerGroupClaim)
    (c : KafkaConsumer) (h : Heap) :
  exists evs n,
    ConsumeClaim time_Now process claim (c, h) =
      Ret None (bump (successes process (Verbose c) (sarama.Messages claim))
                     (failures process (Verbose c) (sarama.Messages claim)) c,
                {| chans := chans h; ctxs := ctxs h;
                   trace := trace h ++ evs; ticks := n |})
    /\ filter is_claim_step evs = claim_steps (sarama.Messages claim).
Proof.
  unfold ConsumeClaim, bind at 1, log, emit. cbn [fst snd].
  unfold bind at 1.
  match goal with |- context [messages_loop _ _ _ (?c1, ?h1)] =>
    destruct (messages_loop_run (sarama.Messages claim) c1 h1)
      as (evs & n & -> & Hsteps) end.
  cbn [heap_emit chans ctxs trace ticks]. unfold ret.
  eexists; exists n. split.
  - rewrite <- app_assoc. reflexivity.
  - simpl. exact Hsteps.
Qed.

Lemma ConsumeClaim_counts (claim : sarama.ConsumerGroupClaim)
    (c : KafkaConsumer) (h : Heap) :
  0 <= numberOfSuccessfullyConsumedMessages c < uint64_modulus ->
  0 <= numberOfErrorsConsumingMessages c < uint64_modulus ->
  exists s',
    ConsumeClaim time_Now process claim (c, h) = Ret None s'
    /\ GetNumberOfSuccessfullyConsumedMessages (fst s') =
         (numberOfSuccessfullyConsumedMessages c
          + Z.of_nat (successes process (Verbose c) (sarama.Messages claim)))
         mod uint64_modulus
    /\ GetNumberOfErrorsConsumingMessages (fst s') =
         (numberOfErrorsConsumingMessages c
          + Z.of_nat (failures process (Verbose c) (sarama.Messages claim)))
         mod uint64_modulus.
Proof.
  intros Hs He.
  destruct (ConsumeClaim_run claim c h) as (evs & n & -> & _).
  eexists; split; [reflexivity|].
  unfold GetNumberOfSuccessfullyConsumedMessages,
    GetNumberOfErrorsConsumingMessages; simpl.
  now rewrite !uint64_iter_incr_mod.
Qed.

(** C1. A claim loop that delivers N messages which are not nil, on K of
    which the processing function fails, returns with the success counter
    N-K higher and the error counter K higher than it found them (the
    counters being [uint64], as long as this stays below 2^64).  So from the
    zero counters of a newly constructed consumer the getters return N-K and
    K; with no failure, N and 0. *)
Theorem counters_after_claim_loop (claim : sarama.ConsumerGroupClaim)
    (c : KafkaConsumer) (h : Heap) :
  0 <= numberOfSuccessfullyConsumedMessages c ->
  0 <= numberOfErrorsConsumingMessages c ->
  numberOfSuccessfullyConsumedMessages c
    + Z.of_nat (delivered (sarama.Messages claim)) < uint64_modulus ->
  numberOfErrorsConsumingMessages c
    + Z.of_nat (delivered (sarama.Messages claim)) < uint64_modulus ->
  0 <= Z.of_nat (failures process (Verbose c) (sarama.Messages claim))
    <= Z.of_nat (delivered (sarama.Messages claim))
  /\ exists s',
      ConsumeClaim time_Now process claim (c, h) = Ret None s'
      /\ GetNumberOfSuccessfullyConsumedMessages (fst s') =
           GetNumberOfSuccessfullyConsumedMessages c
           + (Z.of_nat (delivered (sarama.Messages claim))
              - Z.of_nat (failures process (Verbose c) (sarama.Messages claim)))
      /\ GetNumberOfErrorsConsumingMessages (fst s') =
           GetNumberOfErrorsConsumingMessages c
           + Z.of_nat (failures process (Verbose c) (sarama.Messages claim))
      /\ (GetNumberOfSuccessfullyConsumedMessages c = 0 ->
          GetNumberOfErrorsConsumingMessages c = 0 ->
          GetNumberOfSuccessfullyConsumedMessages (fst s') =
            Z.of_nat (delivered (sarama.Messages claim))
            - Z.of_nat (failures process (Verbose c) (sarama.Messages claim))
          /\ GetNumberOfErrorsConsumingMessages (fst s') =
               Z.of_nat (failures process (Verbose c) (sarama.Messages claim))
          /\ (failures process (Verbose c) (sarama.Messages claim) = O ->
              GetNumberOfSuccessfullyConsumedMessages (fst s') =
                Z.of_nat (delivered (sarama.Messages claim))
              /\ GetNumberOfErrorsConsumingMessages (fst s') = 0)).
Proof.
  intros Hs He HNs HNe.
  pose proof (successes_failures process (Verbose c) (sarama.Messages claim)) as HSF.
  split; [lia|].
  destruct (ConsumeClaim_run claim c h) as (evs & n & -> & _).
  eexists; split; [reflexivity|].
  unfold GetNumberOfSuccessfullyConsumedMessages,
    GetNumberOfErrorsConsumingMessages; simpl.
  rewrite !uint64_iter_incr by lia.
  repeat split; lia.
Qed.


(** C3. On a nil message [HandleMessage] returns, having logged one error;
    the processing function is not called, and both getters return what they
    returned before. *)
Theorem HandleMessage_nil_message (c : KafkaConsumer) (h : Heap) :
  exists s' evs,
    HandleMessage time_Now process None (c, h) = Ret tt s'
    /\ trace (snd s') = trace h ++ evs
    /\ evs = [EvHandleMessage None;
              EvLog {| level := ErrorLevel; fields := [];
                       text := Msg "nil message" |}]
    /\ filter is_ProcessMessage evs = []
    /\ GetNumberOfSuccessfullyConsumedMessages (fst s') =
         GetNumberOfSuccessfullyConsumedMessages c
    /\ GetNumberOfErrorsConsumingMessages (fst s') =
         GetNumberOfErrorsConsumingMessages c
    /\ fst s' = c.
Proof.
  rewrite HandleMessage_nil. eexists; eexists.
  split; [reflexivity|]. split; [reflexivity|]. repeat split.
Qed.

(** ** [Close] *)

(** [Close] always returns nil.  It cancels the context when a cancellation
    handle is set, closes the consumer-group client when there is one, and
    logs the error of that, if any, as its last event. *)
Lemma Close_run (c : KafkaConsumer) (h : Heap) :
  exists s' evs,
    Close (c, h) = Ret None s'
    /\ trace (snd s') = trace h ++ evs
    /\ chans (snd s') = chans h
    /\ Cancel (fst s') = Cancel c
    /\ fst s' = set_ConsumerGroup (ConsumerGroup (fst s')) c
    /\ (Cancel c = None -> ctxs (snd s') = ctxs h)
    /\ (forall i, Cancel c = Some i -> ctxs (snd s') = set_flag i (ctxs h))
    /\ match ConsumerGroup c with
       | None => ConsumerGroup (fst s') = None /\ filter is_GroupClose evs = []
       | Some g =>
           ConsumerGroup (fst s') = Some (fst (sarama.ConsumerGroup_Close g))
           /\ filter is_GroupClose evs = [EvGroupClose]
           /\ match snd (sarama.ConsumerGroup_Close g) with
              | Some err => exists evs0, evs = evs0 ++ [close_error_log err]
              | None => True
              end
       end.
Proof.
  unfold Close, bind, self, call_cancel, emit, update, log, emit, ret, bind;
    cbn [fst snd].
  destruct c as [cfg [g|] ns ne v r [i|]]; cbn [Cancel ConsumerGroup fst snd];
    try destruct (snd (sarama.ConsumerGroup_Close g)) as [err|] eqn:Herr;
    cbn [fst snd heap_emit trace chans ctxs ticks];
    eexists; eexists;
    (split; [reflexivity|]);
    cbn [fst snd heap_emit trace chans ctxs ticks Cancel ConsumerGroup];
    rewrite <- ?app_assoc;
    (split; [try reflexivity; symmetry; apply app_nil_r|]);
    repeat split; try reflexivity; try discriminate;
    try (intros j Hj; now inversion Hj);
    try (exists [EvCancel i; EvGroupClose]; reflexivity);
    try (exists [EvGroupClose]; reflexivity).
Qed.

(** C4. [Close] on a consumer whose cancellation handle is nil returns
    without a panic and without touching any context, and closes the
    consumer-group client the consumer holds, once; and any number of
    calls of [Close] in a row all return. *)
Theorem Close_without_Cancel (c : KafkaConsumer) (h : Heap) :
  Cancel c = None ->
  (exists s' evs,
      Close (c, h) = Ret None s'
      /\ trace (snd s') = trace h ++ evs
      /\ ctxs (snd s') = ctxs h
      /\ Cancel (fst s') = None
      /\ forall g, ConsumerGroup c = Some g ->
           filter is_GroupClose evs = [EvGroupClose]
           /\ ConsumerGroup (fst s') = Some (fst (sarama.ConsumerGroup_Close g)))
  /\ forall n, exists s',
       run_ops time_Now process (repeat OpClose n) (c, h)
       = Ret (repeat (VError None) n) s'.
Proof.
  intro Hnil. split.
  - destruct (Close_run c h) as (s' & evs & Hrun & Htr & _ & Hc & _ & Hctx & _ & Hg).
    exists s', evs. repeat split; auto; try congruence;
      match goal with Hc' : ConsumerGroup c = Some _ |- _ => rewrite Hc' in Hg end;
      tauto.
  - clear Hnil. intro n. revert c h.
    induction n as [|n IH]; intros c h; simpl.
    + eexists; reflexivity.
    + unfold bind at 1. unfold run_op, bind at 1.
      destruct (Close_run c h) as ([c1 h1] & evs & -> & _).
      unfold ret at 1. destruct (IH c1 h1) as (s' & Hs').
      unfold bind. rewrite Hs'. eexists; reflexivity.
Qed.

(** C5. [Close] returns nil in all cases; when closing the consumer-group
    client returns an error, the last event of [Close] is the error-level
    log entry carrying that error. *)
Theorem Close_returns_nil (c : KafkaConsumer) (h : Heap) :
  exists s' evs,
    Close (c, h) = Ret None s'
    /\ trace (snd s') = trace h ++ evs
    /\ forall g err,
         ConsumerGroup c = Some g ->
         snd (sarama.ConsumerGroup_Close g) = Some err ->
         exists evs0, evs = evs0 ++ [close_error_log err].
Proof.
  destruct (Close_run c h) as (s' & evs & Hrun & Htr & _ & _ & _ & _ & _ & Hg).
  exists s', evs. repeat split; auto.
  intros g err Hc Herr. rewrite Hc in Hg. destruct Hg as (_ & _ & Hg).
  now rewrite Herr in Hg.
Qed.

(** ** The session driver *)

Lemma after_Consume_error (ctx : nat) (err : error) (s : State) :
  after_Consume ctx (Some err) s = Exit 1 (fst s, heap_emit [fatal_log err] (snd s)).
Proof. reflexivity. Qed.

Lemma after_Consume_cancelled (ctx : nat) (s : State) :
  cancelled ctx (snd s) = true ->
  after_Consume ctx None s = Ret false (fst s, heap_emit [stopping_log] (snd s)).
Proof.
  intro Hc. unfold after_Consume, bind, ret, ctx_Err, log, emit.
  unfold cancelled in Hc. now rewrite Hc.
Qed.

Lemma after_Consume_running (ctx : nat) (s : State) :
  cancelled ctx (snd s) = false ->
  after_Consume ctx None s = Ret true (round_again s).
Proof.
  intro Hc. unfold after_Consume, bind, ret, ctx_Err, log, emit.
  unfold cancelled in Hc. now rewrite Hc.
Qed.

Lemma driver_loop_cons (ctx : nat) (call : ConsumeCall) (rest : list ConsumeCall)
    (s s1 : State) (err : option error) :
  Consume time_Now process [Topic (Configuration (fst s))] call s = Ret err s1 ->
  driver_loop time_Now process ctx (call :: rest) s =
    match after_Consume ctx err s1 with
    | Ret true s2 => driver_loop time_Now process ctx rest s2
    | Ret false s2 => Ret Stopped s2
    | Panic r s2 => Panic r s2
    | Exit code s2 => Exit code s2
    end.
Proof.
  intro HC. cbn [driver_loop]. unfold bind at 1, self. cbn [fst].
  unfold bind at 1. rewrite HC. unfold bind at 1.
  destruct (after_Consume ctx err s1) as [[|] s2| |]; reflexivity.
Qed.

Lemma unfired_round_again (s : State) :
  exists ready,
    Ready (fst (round_again s)) = Some ready
    /\ unfired ready (snd (round_again s))
    /\ nth_error (chans (snd s)) ready = None.
Proof.
  exists (List.length (chans (snd s))). unfold unfired; simpl.
  repeat split.
  - rewrite nth_error_app2 by lia. now rewrite Nat.sub_diag.
  - apply nth_error_None. lia.
Qed.


(** Whenever [Consume] returns an error the driver logs it at fatal level
    and the process halts with status 1, for it tests the error before it
    looks at the context; the calls of [Consume] that could follow are never
    made. *)
Theorem Consume_error_is_fatal (ctx : nat) (call : ConsumeCall)
    (rest : list ConsumeCall) (s s1 : State) (err : error) :
  Consume time_Now process [Topic (Configuration (fst s))] call s = Ret (Some err) s1 ->
  driver_loop time_Now process ctx (call :: rest) s =
    Exit 1 (fst s1, heap_emit [fatal_log err] (snd s1))
  /\ driver_loop time_Now process ctx (call :: rest) s =
     driver_loop time_Now process ctx [call] s.
Proof.
  intro HC. rewrite !(driver_loop_cons ctx call _ s s1 (Some err) HC).
  rewrite after_Consume_error. split; reflexivity.
Qed.

(** C7. When [Consume] returns without an error, the driver looks at the
    context.  If it is cancelled the goroutine logs that and returns.  If it
    is not, [Ready] is replaced by a channel made at that moment, which is
    not closed and is none of the channels there were, and the loop goes
    round again: with no further return of [Consume] the driver is inside
    the next call of it. *)
Theorem Consume_return_resumes_unless_cancelled (ctx : nat) (call : ConsumeCall)
    (rest : list ConsumeCall) (s s1 : State) :
  Consume time_Now process [Topic (Configuration (fst s))] call s = Ret None s1 ->
  (cancelled ctx (snd s1) = true ->
     driver_loop time_Now process ctx (call :: rest) s =
       Ret Stopped (fst s1, heap_emit [stopping_log] (snd s1)))
  /\ (cancelled ctx (snd s1) = false ->
        driver_loop time_Now process ctx (call :: rest) s =
          driver_loop time_Now process ctx rest (round_again s1)
        /\ (exists ready,
              Ready (fst (round_again s1)) = Some ready
              /\ unfired ready (snd (round_again s1))
              /\ nth_error (chans (snd s1)) ready = None)
        /\ (ConsumerGroup (fst s1) <> None ->
            driver_loop time_Now process ctx [call] s =
              Ret InsideConsume
                  (fst (round_again s1),
                   heap_emit [EvConsume [Topic (Configuration (fst s1))]]
                             (snd (round_again s1))))).
Proof.
  intro HC. split; intro Hc.
  - rewrite (driver_loop_cons ctx call rest s s1 None HC).
    now rewrite after_Consume_cancelled.
  - rewrite !(driver_loop_cons ctx call _ s s1 None HC).
    rewrite after_Consume_running by assumption.
    split; [reflexivity|]. split; [apply unfired_round_again|].
    intro Hg. cbn [driver_loop]. unfold bind, self, Consume_enter, bind, self.
    cbn [fst snd round_again set_Ready ConsumerGroup Configuration].
    destruct (ConsumerGroup (fst s1)); [reflexivity|congruence].
Qed.

(** *** Any number of rebalances *)


Lemma set_flag_length (i : nat) (l : list bool) :
  List.length (set_flag i l) = List.length l.
Proof.
  revert i. induction l as [|b l IH]; intros [|i]; simpl; auto.
Qed.



(** ** Every operation only increments the counters *)

Lemma grows_refl (s : State) : grows 0 s s.
Proof. exists O, O. repeat split; auto. Qed.

Lemma grows_trans (n k : nat) (s s' s'' : State) :
  grows n s s' -> grows k s' s'' -> grows (n + k) s s''.
Proof.
  intros (a & b & Hab & Hs & He & Hc & Hv & Hg)
         (a' & b' & Hab' & Hs' & He' & Hc' & Hv' & Hg').
  exists (a' + a)%nat, (b' + b)%nat.
  rewrite !Nat.iter_add, <- Hs, <- He.
  repeat split; try congruence; try lia. auto.
Qed.

Lemma grows_weaken (n k : nat) (s s' : State) :
  (n <= k)%nat -> grows n s s' -> grows k s s'.
Proof.
  intros Hnk (a & b & Hab & H). exists a, b. split; [lia|exact H].
Qed.

Lemma Grows_ret {A} (a : A) : Grows 0 (ret a).
Proof. intro s. apply grows_refl. Qed.

Lemma Grows_bind {A B} (n k : nat) (m : M A) (f : A -> M B) :
  Grows n m -> (forall a, Grows k (f a)) -> Grows (n + k) (bind m f).
Proof.
  intros Hm Hf s. unfold bind. specialize (Hm s).
  destruct (m s) as [a s'|r s'|code s']; simpl in *.
  - eapply grows_trans; [exact Hm|apply Hf].
  - eapply grows_weaken; [|exact Hm]. lia.
  - eapply grows_weaken; [|exact Hm]. lia.
Qed.

Lemma Grows_bind0 {A B} (k : nat) (m : M A) (f : A -> M B) :
  Grows 0 m -> (forall a, Grows k (f a)) -> Grows k (bind m f).
Proof. intros Hm Hf. apply (Grows_bind 0 k); assumption. Qed.

Lemma Grows_weaken {A} (n k : nat) (m : M A) :
  (n <= k)%nat -> Grows n m -> Grows k m.
Proof. intros Hnk Hm s. eapply grows_weaken; [exact Hnk|apply Hm]. Qed.

Lemma Grows_frame {A} (m : M A) :
  (forall s, exists g r f h,
      final (m s) = (set_ConsumerGroup g (set_Ready r (set_Cancel f (fst s))), h)
      /\ (ConsumerGroup (fst s) <> None -> g <> None)) ->
  Grows 0 m.
Proof.
  intros Hm s. destruct (Hm s) as (g & r & f & h & -> & Hg).
  exists O, O. repeat split; auto.
Qed.

Ltac frame_same :=
  intros [c h]; exists (ConsumerGroup c), (Ready c), (Cancel c);
  eexists; split; [destruct c; reflexivity|auto].

Lemma Grows_self : Grows 0 self.
Proof. apply Grows_frame. frame_same. Qed.

Lemma Grows_emit (e : Event) : Grows 0 (emit e).
Proof. apply Grows_frame. frame_same. Qed.

Lemma Grows_log (lv : Level) (fs : list Field) (t : Text) : Grows 0 (log lv fs t).
Proof. apply Grows_emit. Qed.

Lemma Grows_panic {A} (r : string) : Grows 0 (@panic L A r).
Proof. apply Grows_frame. frame_same. Qed.

Lemma Grows_os_Exit {A} (code : Z) : Grows 0 (@os_Exit L A code).
Proof. apply Grows_frame. frame_same. Qed.

Lemma Grows_time_now : Grows 0 (time_now time_Now).
Proof. apply Grows_frame. frame_same. Qed.

Lemma Grows_make_chan : Grows 0 make_chan.
Proof. apply Grows_frame. frame_same. Qed.

Lemma Grows_ctx_Err (ctx : nat) : Grows 0 (ctx_Err ctx).
Proof. apply Grows_frame. frame_same. Qed.

Lemma Grows_context_WithCancel : Grows 0 context_WithCancel.
Proof. apply Grows_frame. frame_same. Qed.

Lemma Grows_close_chan (ch : option nat) : Grows 0 (close_chan ch).
Proof.
  apply Grows_frame. intros [c h].
  exists (ConsumerGroup c), (Ready c), (Cancel c). unfold close_chan.
  destruct ch as [i|]; [destruct (nth_error (chans (snd (c, h))) i) as [[|]|]|];
    eexists; (split; [destruct c; reflexivity|auto]).
Qed.

Lemma Grows_call_cancel (f : option nat) : Grows 0 (call_cancel f).
Proof.
  destruct f as [i|]; [|apply Grows_panic].
  apply Grows_frame. frame_same.
Qed.

Lemma Grows_emit_logs (ls : list LogEntry) : Grows 0 (emit_logs ls).
Proof.
  induction ls as [|l ls IH]; [apply Grows_ret|].
  apply Grows_bind0; [apply Grows_emit|intros _; exact IH].
Qed.

Lemma Grows_set_Ready (r : option nat) : Grows 0 (update (set_Ready r)).
Proof.
  apply Grows_frame. intros [c h].
  exists (ConsumerGroup c), r, (Cancel c).
  eexists; split; [destruct c; reflexivity|auto].
Qed.

Lemma Grows_set_Cancel (f : option nat) : Grows 0 (update (set_Cancel f)).
Proof.
  apply Grows_frame. intros [c h].
  exists (ConsumerGroup c), (Ready c), f.
  eexists; split; [destruct c; reflexivity|auto].
Qed.

Lemma Grows_set_ConsumerGroup (g : sarama.ConsumerGroup) :
  Grows 0 (update (set_ConsumerGroup (Some g))).
Proof.
  apply Grows_frame. intros [c h].
  exists (Some g), (Ready c), (Cancel c).
  eexists; split; [destruct c; reflexivity|discriminate].
Qed.

Lemma Grows_incr_successes : Grows 1 (update incr_successes).
Proof. intros [c h]. exists 1%nat, O. repeat split; auto. Qed.

Lemma Grows_incr_errors : Grows 1 (update incr_errors).
Proof. intros [c h]. exists O, 1%nat. repeat split; auto. Qed.

Create HintDb grows.

#[local] Hint Resolve Grows_ret Grows_self Grows_emit Grows_log Grows_panic
  Grows_os_Exit Grows_time_now Grows_make_chan Grows_ctx_Err
  Grows_context_WithCancel Grows_close_chan Grows_call_cancel Grows_emit_logs
  Grows_set_Ready Grows_set_Cancel Grows_set_ConsumerGroup : grows.

(** Sequences of steps that do not count. *)
Ltac grows0 :=
  repeat first
    [ solve [auto with grows]
    | apply Grows_bind0; [|intro] ].

Lemma Grows_Setup : Grows 0 Setup.
Proof. unfold Setup. grows0. Qed.

Lemma Grows_Cleanup : Grows 0 Cleanup.
Proof. unfold Cleanup. grows0. Qed.

Lemma Grows_run_processor (p : Processor) (m : sarama.ConsumerMessage) :
  Grows 0 (run_processor p m).
Proof. unfold run_processor. grows0. Qed.

Lemma Grows_ProcessMessage (msg : option sarama.ConsumerMessage) :
  Grows 0 (ProcessMessage msg).
Proof.
  destruct msg; simpl; [apply Grows_run_processor|apply Grows_panic].
Qed.

Lemma Grows_Close : Grows 0 Close.
Proof.
  unfold Close.
  apply Grows_bind0; [grows0|intro c].
  apply Grows_bind0; [destruct (Cancel c); grows0|intros _].
  apply Grows_bind0; [grows0|intro c'].
  apply Grows_bind0; [|intros _; grows0].
  destruct (ConsumerGroup c') as [g|]; [|grows0].
  apply Grows_bind0; [grows0|intros _].
  apply Grows_bind0; [grows0|intros _].
  destruct (snd (sarama.ConsumerGroup_Close g)); grows0.
Qed.

Lemma Grows_HandleMessage (msg : option sarama.ConsumerMessage) :
  Grows 1 (HandleMessage time_Now process msg).
Proof.
  unfold HandleMessage.
  apply Grows_bind0; [grows0|intros _].
  destruct msg as [m|]; [|apply (Grows_weaken 0); [lia|grows0]].
  apply Grows_bind0; [grows0|intros _].
  apply Grows_bind0; [grows0|intros startTime].
  apply Grows_bind0; [apply Grows_run_processor|intros err].
  apply Grows_bind0; [grows0|intros t].
  apply (Grows_bind 1 0); [|intros _; grows0].
  destruct err.
  - apply Grows_bind0; [grows0|intros _; apply Grows_incr_errors].
  - apply Grows_incr_successes.
Qed.

Lemma Grows_messages_loop (msgs : list (option sarama.ConsumerMessage)) :
  Grows (List.length msgs) (messages_loop time_Now process msgs).
Proof.
  induction msgs as [|msg msgs IH]; [apply Grows_ret|].
  cbn [messages_loop List.length].
  apply (Grows_bind 1 (List.length msgs)); [apply Grows_HandleMessage|intros _].
  apply Grows_bind0; [unfold MarkMessage; grows0|intros _; exact IH].
Qed.

Lemma Grows_ConsumeClaim (claim : sarama.ConsumerGroupClaim) :
  Grows (List.length (sarama.Messages claim))
        (ConsumeClaim time_Now process claim).
Proof.
  unfold ConsumeClaim.
  apply Grows_bind0; [grows0|intros _].
  apply (Grows_weaken (List.length (sarama.Messages claim) + 0)); [lia|].
  apply Grows_bind; [apply Grows_messages_loop|intros _; grows0].
Qed.

Lemma Grows_run_callback (cb : Callback) :
  Grows (messages_in_callback cb) (run_callback time_Now process cb).
Proof.
  destruct cb; cbn [run_callback messages_in_callback].
  - apply Grows_bind0; [apply Grows_Setup|intros _; grows0].
  - apply (Grows_weaken (List.length (sarama.Messages claim) + 0)); [lia|].
    apply Grows_bind; [apply Grows_ConsumeClaim|intros _; grows0].
  - apply Grows_bind0; [apply Grows_Cleanup|intros _; grows0].
  - apply Grows_bind0; [apply Grows_Close|intros _; grows0].
Qed.

Lemma Grows_run_callbacks (cbs : list Callback) :
  Grows (list_sum (map messages_in_callback cbs))
        (run_callbacks time_Now process cbs).
Proof.
  induction cbs as [|cb cbs IH]; [apply Grows_ret|].
  cbn [run_callbacks map list_sum fold_right].
  apply Grows_bind; [apply Grows_run_callback|intros _; exact IH].
Qed.

Lemma Grows_Consume_enter (topics : list string) : Grows 0 (Consume_enter topics).
Proof.
  unfold Consume_enter. apply Grows_bind0; [grows0|intro c].
  destruct (ConsumerGroup c); grows0.
Qed.

Lemma Grows_Consume (topics : list string) (call : ConsumeCall) :
  Grows (messages_in_call call) (Consume time_Now process topics call).
Proof.
  unfold Consume, messages_in_call.
  apply Grows_bind0; [apply Grows_Consume_enter|intros _].
  apply (Grows_weaken (list_sum (map messages_in_callback (callbacks call)) + 0));
    [lia|].
  apply Grows_bind; [apply Grows_run_callbacks|intros _; grows0].
Qed.

Lemma Grows_after_Consume (ctx : nat) (err : option error) :
  Grows 0 (after_Consume ctx err).
Proof.
  unfold after_Consume.
  apply Grows_bind0; [destruct err; grows0|intros _].
  apply Grows_bind0; [grows0|intros [e|]]; grows0.
Qed.

Lemma Grows_driver_loop (ctx : nat) (script : list ConsumeCall) :
  Grows (list_sum (map messages_in_call script))
        (driver_loop time_Now process ctx script).
Proof.
  induction script as [|call rest IH]; cbn [driver_loop map list_sum fold_right].
  - apply Grows_bind0; [grows0|intro c].
    apply Grows_bind0; [apply Grows_Consume_enter|intros _; grows0].
  - apply Grows_bind0; [grows0|intro c].
    apply Grows_bind; [apply Grows_Consume|intro err].
    apply Grows_bind0; [apply Grows_after_Consume|intros [|]].
    + exact IH.
    + apply (Grows_weaken 0); [lia|grows0].
Qed.

Lemma Grows_Serve (script : list ConsumeCall) :
  Grows (list_sum (map messages_in_call script)) (Serve time_Now process script).
Proof.
  unfold Serve.
  apply Grows_bind0; [grows0|intro ctx].
  apply Grows_bind0; [grows0|intros _].
  apply Grows_driver_loop.
Qed.

Lemma Grows_run_op (op : Op) :
  Grows (messages_in_op op) (run_op time_Now process op).
Proof.
  destruct op; cbn [run_op messages_in_op].
  - apply (Grows_weaken (list_sum (map messages_in_call script) + 0)); [lia|].
    apply Grows_bind; [apply Grows_Serve|intro; grows0].
  - apply Grows_bind0; [apply Grows_Setup|intro; grows0].
  - apply Grows_bind0; [apply Grows_Cleanup|intro; grows0].
  - apply (Grows_weaken (List.length (sarama.Messages claim) + 0)); [lia|].
    apply Grows_bind; [apply Grows_ConsumeClaim|intro; grows0].
  - apply (Grows_bind 1 0); [apply Grows_HandleMessage|intro; grows0].
  - apply Grows_bind0; [apply Grows_ProcessMessage|intro; grows0].
  - apply Grows_bind0; [apply Grows_Close|intro; grows0].
  - grows0.
  - grows0.
Qed.

Lemma Grows_run_ops (ops : list Op) :
  Grows (messages_in ops) (run_ops time_Now process ops).
Proof.
  unfold messages_in.
  induction ops as [|op ops IH]; cbn [run_ops map list_sum fold_right].
  - apply Grows_ret.
  - apply Grows_bind; [apply Grows_run_op|intro v].
    eapply Grows_weaken; [|apply Grows_bind; [exact IH|intro; grows0]].
    rewrite Nat.add_0_r. apply Nat.le_refl.
Qed.

Lemma final_bind_ret {A B} (m : M A) (f : A -> B) (s : State) :
  final (bind m (fun a => ret (f a)) s) = final (m s).
Proof. unfold bind. now destruct (m s). Qed.

(** A run continued: the continuation starts where the run returned, and
    does not start when the run panicked or halted the process. *)
Lemma run_ops_app_final (pre post : list Op) (s : State) :
  final (run_ops time_Now process (pre ++ post) s) =
    match run_ops time_Now process pre s with
    | Ret _ s1 => final (run_ops time_Now process post s1)
    | o => final o
    end.
Proof.
  revert s. induction pre as [|op pre IH]; intro s; [reflexivity|].
  cbn [app run_ops]. unfold bind at 1 3.
  destruct (run_op time_Now process op s) as [v s1|r s1|code s1]; try reflexivity.
  rewrite final_bind_ret, IH. unfold bind.
  destruct (run_ops time_Now process pre s1); reflexivity.
Qed.

Lemma grows_run_ops_app (pre post : list Op) (s : State) :
  grows (messages_in post)
        (final (run_ops time_Now process pre s))
        (final (run_ops time_Now process (pre ++ post) s)).
Proof.
  rewrite run_ops_app_final.
  destruct (run_ops time_Now process pre s) as [vs s1|r s1|code s1]; simpl.
  - apply Grows_run_ops.
  - eapply grows_weaken; [|apply grows_refl]. lia.
  - eapply grows_weaken; [|apply grows_refl]. lia.
Qed.

Lemma messages_in_app (pre post : list Op) :
  messages_in (pre ++ post) = (messages_in pre + messages_in post)%nat.
Proof. unfold messages_in. now rewrite map_app, list_sum_app. Qed.

Lemma NewWithSaramaConfig_counters (brokerCfg : BrokerConfiguration)
    (saramaConfig : option sarama.Config) (verbose : bool) (h0 h : Heap)
    (c : KafkaConsumer) (err : option error) :
  NewWithSaramaConfig brokerCfg saramaConfig verbose h0 = (Some c, err, h) ->
  numberOfSuccessfullyConsumedMessages c = 0
  /\ numberOfErrorsConsumingMessages c = 0
  /\ Cancel c = None.
Proof.
  unfold NewWithSaramaConfig.
  destruct (sarama.NewConsumerGroup _ _ _); intro H; inversion H; subst.
  repeat split.
Qed.

(** When the operations follow one another, no two of them at once: from
    the construction of a consumer on and through any operations that hand
    fewer than 2^64 messages to the handler in all, neither counter ever
    goes down: what the getters return after a run of operations is at most
    what they return after any continuation of that run.  At construction
    both counters are zero. *)
Theorem counters_never_decrease (brokerCfg : BrokerConfiguration)
    (saramaConfig : option sarama.Config) (verbose : bool) (h0 h : Heap)
    (c : KafkaConsumer) (pre post : list Op) :
  NewWithSaramaConfig brokerCfg saramaConfig verbose h0 = (Some c, None, h) ->
  Z.of_nat (messages_in (pre ++ post)) < uint64_modulus ->
  GetNumberOfSuccessfullyConsumedMessages c = 0
  /\ GetNumberOfErrorsConsumingMessages c = 0
  /\ GetNumberOfSuccessfullyConsumedMessages
       (fst (final (run_ops time_Now process pre (c, h))))
     <= GetNumberOfSuccessfullyConsumedMessages
          (fst (final (run_ops time_Now process (pre ++ post) (c, h))))
  /\ GetNumberOfErrorsConsumingMessages
       (fst (final (run_ops time_Now process pre (c, h))))
     <= GetNumberOfErrorsConsumingMessages
          (fst (final (run_ops time_Now process (pre ++ post) (c, h)))).
Proof.
  intros Hnew Hbound.
  destruct (NewWithSaramaConfig_counters _ _ _ _ _ _ _ Hnew) as (Hs0 & He0 & _).
  rewrite messages_in_app in Hbound.
  destruct (Grows_run_ops pre (c, h)) as (a & b & Hab & Hs & He & _).
  destruct (grows_run_ops_app pre post (c, h)) as (a' & b' & Hab' & Hs' & He' & _).
  unfold GetNumberOfSuccessfullyConsumedMessages,
    GetNumberOfErrorsConsumingMessages.
  cbn [fst] in Hs, He.
  rewrite Hs', He', Hs, He, <- !Nat.iter_add, Hs0, He0.
  rewrite !uint64_iter_incr by lia.
  repeat split; lia.
Qed.

(** ** [ProcessMessage] *)

(** C9. On a message that is not nil [ProcessMessage] returns nil and leaves
    the consumer as it is; it logs the length of the payload, and after it
    the payload as text exactly when the consumer is verbose.  It is the
    processing function of the program, so that a consumer fed the payloads
    "a", "" and "abc" logs the lengths 1, 0 and 3 in this order and counts
    three successes and no error. *)
Theorem ProcessMessage_logs_length (m : sarama.ConsumerMessage)
    (c : KafkaConsumer) (h : Heap) :
  (exists s' evs,
      ProcessMessage (Some m) (c, h) = Ret None s'
      /\ fst s' = c
      /\ trace (snd s') = trace h ++ evs
      /\ evs = ProcessMessage_events (Verbose c) m
      /\ logged_lengths evs = [Z.of_nat (List.length (sarama.Value m))]
      /\ logged_contents evs =
           (if Verbose c then [string_of_list_byte (sarama.Value m)] else []))
  /\ (forall verbose, snd (ProcessMessage_fn verbose m) = None)
  /\ (exists s',
        ConsumeClaim (L := Sample.library) Sample.clock ProcessMessage_fn
          (Sample.claim [Some (Sample.message 0 "a");
                         Some (Sample.message 1 "");
                         Some (Sample.message 2 "abc")])
          (Sample.consumer Sample.library false false, Sample.heap) = Ret None s'
        /\ logged_lengths (trace (snd s')) = [1; 0; 3]
        /\ GetNumberOfSuccessfullyConsumedMessages (fst s') = 3
        /\ GetNumberOfErrorsConsumingMessages (fst s') = 0).
Proof.
  split; [|split; [reflexivity|]].
  - unfold ProcessMessage, run_processor, bind, self, emit, ret. cbn [fst snd].
    rewrite emit_logs_run. cbn [fst snd]. rewrite heap_emit_app.
    eexists; eexists. split; [reflexivity|].
    cbn [fst snd heap_emit trace].
    split; [reflexivity|]. split; [reflexivity|].
    unfold ProcessMessage_events, ProcessMessage_fn. cbn [fst].
    destruct (Verbose c); repeat split.
  - eexists. split; [vm_compute; reflexivity|].
    repeat split; vm_compute; reflexivity.
Qed.

(** ** The timeout of the configuration *)

Lemma Oblivious_ret {A} (a : A) : Oblivious (ret a).
Proof. intros t c h. reflexivity. Qed.

Lemma Oblivious_bind {A B} (m : M A) (f : A -> M B) :
  Oblivious m -> (forall a, Oblivious (f a)) -> Oblivious (bind m f).
Proof.
  intros Hm Hf t c h. unfold bind. rewrite Hm.
  destruct (m (c, h)) as [a [c1 h1]|r [c1 h1]|code [c1 h1]]; simpl;
    [apply Hf|reflexivity|reflexivity].
Qed.

(** Reading the receiver: what follows may use any field of it but the
    timeout. *)
Lemma Oblivious_self_bind {B} (k : KafkaConsumer -> M B) :
  (forall t c s, k (retime t c) s = k c s) ->
  (forall c, Oblivious (k c)) -> Oblivious (bind self k).
Proof.
  intros Hk Hobl t c h. unfold bind, self. cbn [fst].
  rewrite Hk. apply Hobl.
Qed.

Lemma Oblivious_emit (e : Event) : Oblivious (emit e).
Proof. intros t c h. reflexivity. Qed.

Lemma Oblivious_log (lv : Level) (fs : list Field) (txt : Text) :
  Oblivious (log lv fs txt).
Proof. apply Oblivious_emit. Qed.

Lemma Oblivious_panic {A} (r : string) : Oblivious (@panic L A r).
Proof. intros t c h. reflexivity. Qed.

Lemma Oblivious_os_Exit {A} (code : Z) : Oblivious (@os_Exit L A code).
Proof. intros t c h. reflexivity. Qed.

Lemma Oblivious_time_now : Oblivious (time_now time_Now).
Proof. intros t c h. reflexivity. Qed.

Lemma Oblivious_make_chan : Oblivious make_chan.
Proof. intros t c h. reflexivity. Qed.

Lemma Oblivious_ctx_Err (ctx : nat) : Oblivious (ctx_Err ctx).
Proof. intros t c h. reflexivity. Qed.

Lemma Oblivious_context_WithCancel : Oblivious context_WithCancel.
Proof. intros t c h. reflexivity. Qed.

Lemma Oblivious_close_chan (ch : option nat) : Oblivious (close_chan ch).
Proof.
  intros t c h. unfold close_chan. cbn [fst snd].
  destruct ch as [i|]; [|reflexivity].
  destruct (nth_error (chans h) i) as [[|]|]; reflexivity.
Qed.

Lemma Oblivious_call_cancel (f : option nat) : Oblivious (call_cancel f).
Proof. destruct f; intros t c h; reflexivity. Qed.

Lemma Oblivious_emit_logs (ls : list LogEntry) : Oblivious (emit_logs ls).
Proof.
  induction ls as [|l ls IH]; [apply Oblivious_ret|].
  apply Oblivious_bind; [apply Oblivious_emit|intros _; exact IH].
Qed.

Lemma Oblivious_update (f : KafkaConsumer -> KafkaConsumer) :
  (forall t c, f (retime t c) = retime t (f c)) -> Oblivious (update f).
Proof. intros Hf t c h. unfold update. cbn [fst snd outcome_map]. now rewrite Hf. Qed.

Create HintDb oblivious.

#[local] Hint Resolve Oblivious_ret Oblivious_emit Oblivious_log Oblivious_panic
  Oblivious_os_Exit Oblivious_time_now Oblivious_make_chan Oblivious_ctx_Err
  Oblivious_context_WithCancel Oblivious_close_chan Oblivious_call_cancel
  Oblivious_emit_logs : oblivious.

(** Straight-line code: follow the binds, split on what is matched. *)
Ltac oblivious :=
  repeat first
    [ solve [auto with oblivious]
    | apply Oblivious_update; reflexivity
    | apply Oblivious_self_bind; [reflexivity|intro]
    | apply Oblivious_bind; [|intro]
    | match goal with
      | |- Oblivious (match ?x with _ => _ end) => destruct x
      end ].

Lemma Oblivious_Setup : Oblivious Setup.
Proof. unfold Setup. oblivious. Qed.

Lemma Oblivious_Cleanup : Oblivious Cleanup.
Proof. unfold Cleanup. oblivious. Qed.

Lemma Oblivious_run_processor (p : Processor) (m : sarama.ConsumerMessage) :
  Oblivious (run_processor p m).
Proof. unfold run_processor. oblivious. Qed.

Lemma Oblivious_ProcessMessage (msg : option sarama.ConsumerMessage) :
  Oblivious (ProcessMessage msg).
Proof.
  destruct msg; simpl; [apply Oblivious_run_processor|apply Oblivious_panic].
Qed.

Lemma Oblivious_Close : Oblivious Close.
Proof. unfold Close. oblivious. Qed.

Lemma Oblivious_HandleMessage (msg : option sarama.ConsumerMessage) :
  Oblivious (HandleMessage time_Now process msg).
Proof.
  pose proof Oblivious_run_processor.
  unfold HandleMessage. oblivious.
Qed.

Lemma Oblivious_messages_loop (msgs : list (option sarama.ConsumerMessage)) :
  Oblivious (messages_loop time_Now process msgs).
Proof.
  induction msgs as [|msg msgs IH]; [apply Oblivious_ret|].
  cbn [messages_loop].
  apply Oblivious_bind; [apply Oblivious_HandleMessage|intros _].
  apply Oblivious_bind; [apply Oblivious_emit|intros _; exact IH].
Qed.

Lemma Oblivious_ConsumeClaim (claim : sarama.ConsumerGroupClaim) :
  Oblivious (ConsumeClaim time_Now process claim).
Proof.
  pose proof Oblivious_messages_loop.
  unfold ConsumeClaim. oblivious.
Qed.

Lemma Oblivious_run_callbacks (cbs : list Callback) :
  Oblivious (run_callbacks time_Now process cbs).
Proof.
  pose proof Oblivious_Setup. pose proof Oblivious_Cleanup.
  pose proof Oblivious_Close. pose proof Oblivious_ConsumeClaim.
  induction cbs as [|cb cbs IH]; [apply Oblivious_ret|].
  cbn [run_callbacks].
  apply Oblivious_bind; [|intros _; exact IH].
  destruct cb; cbn [run_callback]; oblivious.
Qed.

Lemma Oblivious_Consume_enter (topics : list string) :
  Oblivious (Consume_enter topics).
Proof. unfold Consume_enter. oblivious. Qed.

Lemma Oblivious_Consume (topics : list string) (call : ConsumeCall) :
  Oblivious (Consume time_Now process topics call).
Proof.
  pose proof Oblivious_Consume_enter. pose proof Oblivious_run_callbacks.
  unfold Consume. oblivious.
Qed.

Lemma Oblivious_after_Consume (ctx : nat) (err : option error) :
  Oblivious (after_Consume ctx err).
Proof. unfold after_Consume. oblivious. Qed.

Lemma Oblivious_driver_loop (ctx : nat) (script : list ConsumeCall) :
  Oblivious (driver_loop time_Now process ctx script).
Proof.
  pose proof Oblivious_Consume_enter. pose proof Oblivious_Consume.
  pose proof Oblivious_after_Consume.
  induction script as [|call rest IH]; cbn [driver_loop]; oblivious.
Qed.

Lemma Oblivious_Serve (script : list ConsumeCall) :
  Oblivious (Serve time_Now process script).
Proof.
  pose proof Oblivious_driver_loop.
  unfold Serve. oblivious.
Qed.

Lemma Oblivious_run_op (op : Op) : Oblivious (run_op time_Now process op).
Proof.
  pose proof Oblivious_Serve. pose proof Oblivious_Setup.
  pose proof Oblivious_Cleanup. pose proof Oblivious_ConsumeClaim.
  pose proof Oblivious_HandleMessage. pose proof Oblivious_ProcessMessage.
  pose proof Oblivious_Close.
  destruct op; cbn [run_op]; oblivious.
Qed.

Lemma Oblivious_run_ops (ops : list Op) : Oblivious (run_ops time_Now process ops).
Proof.
  pose proof Oblivious_run_op.
  induction ops as [|op ops IH]; cbn [run_ops]; oblivious.
Qed.

Lemma only_Timeout_differs (b1 b2 : BrokerConfiguration) :
  Address b1 = Address b2 -> Topic b1 = Topic b2 -> Group b1 = Group b2 ->
  b2 = set_Timeout (Timeout b2) b1.
Proof. destruct b1, b2; simpl; intros; subst; reflexivity. Qed.

Lemma NewWithSaramaConfig_Timeout (t : Z) (brokerCfg : BrokerConfiguration)
    (saramaConfig : option sarama.Config) (verbose : bool) (h : Heap) :
  same_but_Timeout t
    (NewWithSaramaConfig brokerCfg saramaConfig verbose h)
    (NewWithSaramaConfig (set_Timeout t brokerCfg) saramaConfig verbose h).
Proof.
  unfold same_but_Timeout, NewWithSaramaConfig.
  cbn [Address Group set_Timeout].
  destruct (sarama.NewConsumerGroup _ _ _); repeat split.
Qed.

(** C10. Two configurations that differ only in [Timeout] make both
    constructors do the same: the same log entry, the same client
    configuration handed to the library and so the same error or the same
    consumer but for the timeout it stores.  And two consumers that differ
    only in that stored timeout behave the same under every run of
    operations: the same outcome, returned values, trace and heap, and
    again the same consumer but for the timeout. *)
Theorem Timeout_has_no_effect (b1 b2 : BrokerConfiguration)
    (saramaConfig : option sarama.Config) (verbose : bool) (h : Heap) :
  Address b1 = Address b2 -> Topic b1 = Topic b2 -> Group b1 = Group b2 ->
  same_but_Timeout (Timeout b2)
    (NewWithSaramaConfig b1 saramaConfig verbose h)
    (NewWithSaramaConfig b2 saramaConfig verbose h)
  /\ same_but_Timeout (Timeout b2)
       (NewConsumer saramaConfig b1 verbose h)
       (NewConsumer saramaConfig b2 verbose h)
  /\ forall c ops h',
       run_ops time_Now process ops (retime (Timeout b2) c, h') =
         outcome_map (retime (Timeout b2)) (run_ops time_Now process ops (c, h')).
Proof.
  intros Ha Ht Hg.
  rewrite (only_Timeout_differs b1 b2 Ha Ht Hg) at 2 4.
  unfold NewConsumer.
  split; [apply NewWithSaramaConfig_Timeout|].
  split; [apply NewWithSaramaConfig_Timeout|].
  intros c ops h'. apply Oblivious_run_ops.
Qed.

End Properties.

(** The spec's scenario for C1: three messages, processing made to fail on
    the second. *)
Lemma counters_after_claim_loop_witness :
  exists s',
    ConsumeClaim (L := Sample.library) Sample.clock (Sample.fail_at [11])
      (Sample.claim [Some (Sample.message 10 "a");
                     Some (Sample.message 11 "");
                     Some (Sample.message 12 "abc")])
      (Sample.consumer Sample.library false false, Sample.heap) = Ret None s'
    /\ GetNumberOfSuccessfullyConsumedMessages (fst s') = 3 - 1
    /\ GetNumberOfErrorsConsumingMessages (fst s') = 1.
Proof.
  assert (H0 : 0 <= 0) by lia.
  assert (HN : 0 + Z.of_nat 3 < uint64_modulus) by (vm_compute; reflexivity).
  destruct (counters_after_claim_loop (L := Sample.library) Sample.clock
              (Sample.fail_at [11])
              (Sample.claim [Some (Sample.message 10 "a");
                             Some (Sample.message 11 "");
                             Some (Sample.message 12 "abc")])
              (Sample.consumer Sample.library false false) Sample.heap
              H0 H0 HN HN)
    as (_ & s' & Hrun & _ & _ & Hfresh).
  destruct (Hfresh eq_refl eq_refl) as (Hs & He & _).
  exists s'. repeat split; assumption.
Defined.

Lemma Close_without_Cancel_witness :
  Cancel (Sample.consumer Sample.library false false) = None
  /\ exists s' evs,
       Close (L := Sample.library)
         (Sample.consumer Sample.library false false, Sample.heap) = Ret None s'
       /\ trace (snd s') = trace Sample.heap ++ evs
       /\ filter is_GroupClose evs = [EvGroupClose].
Proof.
  split; [reflexivity|].
  destruct (Close_without_Cancel (L := Sample.library) Sample.clock
              ProcessMessage_fn (Sample.consumer Sample.library false false)
              Sample.heap eq_refl)
    as [(s' & evs & Hrun & Htr & _ & _ & Hg) _].
  exists s', evs. repeat split; try assumption.
  exact (proj1 (Hg false eq_refl)).
Defined.

(** A client whose [Close] fails: [Close] of the consumer returns nil, and
    the error is the last thing logged. *)
Example Close_swallows_the_error :
  exists s',
    Close (L := Sample.failing_close)
      (Sample.consumer Sample.failing_close false false, Sample.heap)
    = Ret None s'
    /\ trace (snd s') =
         trace Sample.heap ++ [EvGroupClose; close_error_log "broker unreachable"].
Proof. eexists. split; vm_compute; reflexivity. Qed.

(** A transport failure while joining: the process halts. *)
Lemma Consume_error_is_fatal_witness :
  exists s1,
    Consume (L := Sample.library) Sample.clock ProcessMessage_fn ["ccx"]
      (Sample.generation (Some "dial tcp: connection refused"))
      (Sample.serving Sample.library false false, Sample.serving_heap)
    = Ret (Some "dial tcp: connection refused") s1
    /\ driver_loop (L := Sample.library) Sample.clock ProcessMessage_fn 0
         [Sample.generation (Some "dial tcp: connection refused");
          Sample.generation None]
         (Sample.serving Sample.library false false, Sample.serving_heap)
       = Exit 1 (fst s1,
                 heap_emit [fatal_log "dial tcp: connection refused"] (snd s1)).
Proof.
  eexists. split; [vm_compute; reflexivity|].
  apply (Consume_error_is_fatal (L := Sample.library) Sample.clock ProcessMessage_fn).
  vm_compute; reflexivity.
Defined.

(** C6. An error of [Consume] that only follows the cancellation by [Close]
    should let the loop see the cancellation and stop; the driver misses
    that case.  Here [Close] cancels the context while [Consume] is blocked
    and [Consume] returns the error of the cancelled context: the driver,
    which tests the error before it looks at the context, never takes its
    own path for a cancelled context (it does not return [Stopped]), logs
    the error at fatal level as a failure to recreate the session, and the
    process halts with status 1. *)
Lemma cancelled_Consume_error_is_fatal_too :
  exists s',
    Serve (L := Sample.library) Sample.clock ProcessMessage_fn
      [Sample.closed_meanwhile]
      (Sample.consumer Sample.library false false, Sample.heap) = Exit 1 s'
    /\ Cancel (fst s') = Some O
    /\ cancelled 0 (snd s') = true
    /\ In (EvCancel 0) (trace (snd s'))
    /\ last (trace (snd s')) EvGroupClose = fatal_log "context canceled"
    /\ forall s,
         Serve (L := Sample.library) Sample.clock ProcessMessage_fn
           [Sample.closed_meanwhile]
           (Sample.consumer Sample.library false false, Sample.heap)
         <> Ret Stopped s.
Proof.
  eexists. split; [vm_compute; reflexivity|].
  split; [reflexivity|]. split; [reflexivity|].
  split; [vm_compute; tauto|]. split; [reflexivity|].
  intros s H. vm_compute in H. discriminate H.
Qed.

(** A rebalance: [Consume] returns without an error, nobody has asked to
    stop, and the driver is inside [Consume] again, with a new [Ready]. *)
Lemma Consume_return_resumes_unless_cancelled_witness :
  exists s1,
    Consume (L := Sample.library) Sample.clock ProcessMessage_fn ["ccx"]
      (Sample.generation None)
      (Sample.serving Sample.library false false, Sample.serving_heap)
    = Ret None s1
    /\ cancelled 0 (snd s1) = false
    /\ driver_loop (L := Sample.library) Sample.clock ProcessMessage_fn 0
         [Sample.generation None]
         (Sample.serving Sample.library false false, Sample.serving_heap)
       = Ret InsideConsume
           (fst (round_again s1),
            heap_emit [EvConsume ["ccx"]] (snd (round_again s1)))
    /\ Ready (fst (round_again s1)) = Some 1%nat
    /\ Ready (fst s1) = Some 0%nat.
Proof.
  eexists. split; [vm_compute; reflexivity|].
  split; [reflexivity|]. split; [|split; reflexivity].
  refine (proj2 (proj2 (proj2 (Consume_return_resumes_unless_cancelled
            (L := Sample.library) Sample.clock ProcessMessage_fn 0
            (Sample.generation None) []
            (Sample.serving Sample.library false false, Sample.serving_heap)
            _ _) _)) _).
  - vm_compute; reflexivity.
  - reflexivity.
  - discriminate.
Defined.

Lemma counters_never_decrease_witness :
  exists c h,
    NewWithSaramaConfig (L := Sample.library) Sample.brokerCfg None false empty_heap
    = (Some c, None, h)
    /\ GetNumberOfSuccessfullyConsumedMessages
         (fst (final (run_ops Sample.clock (Sample.fail_at [1])
                        [OpHandleMessage (Some (Sample.message 0 "a"))] (c, h))))
       <= GetNumberOfSuccessfullyConsumedMessages
            (fst (final (run_ops Sample.clock (Sample.fail_at [1])
                           ([OpHandleMessage (Some (Sample.message 0 "a"))]
                            ++ [OpServe [Sample.generation None];
                                OpHandleMessage (Some (Sample.message 1 "b"));
                                OpClose])
                           (c, h)))).
Proof.
  eexists; eexists. split; [vm_compute; reflexivity|].
  refine (proj1 (proj2 (proj2 (counters_never_decrease (L := Sample.library)
            Sample.clock (Sample.fail_at [1]) Sample.brokerCfg None false
            empty_heap _ _ _ _ _ _)))).
  - vm_compute; reflexivity.
  - vm_compute; reflexivity.
Defined.

Lemma Timeout_has_no_effect_witness :
  same_but_Timeout (L := Sample.library) 5000
    (NewConsumer None Sample.brokerCfg true empty_heap)
    (NewConsumer None (set_Timeout 5000 Sample.brokerCfg) true empty_heap).
Proof.
  exact (proj1 (proj2 (Timeout_has_no_effect (L := Sample.library) Sample.clock
           ProcessMessage_fn Sample.brokerCfg (set_Timeout 5000 Sample.brokerCfg)
           None true empty_heap eq_refl eq_refl eq_refl))).
Defined.

(** Were [Ready] not replaced, the second generation would close a closed
    channel. *)
Example Setup_twice_panics :
  exists s,
    run_ops (L := Sample.library) Sample.clock ProcessMessage_fn [OpSetup; OpSetup]
      (Sample.consumer Sample.library false false, Sample.heap)
    = Panic "close of closed channel" s.
Proof. eexists. vm_compute. reflexivity. Qed.

(** [Close] during the second generation: [Consume] returns without an
    error, the driver sees the cancelled context and returns. *)
Example Serve_stops_after_Close :
  exists s,
    Serve (L := Sample.library) Sample.clock ProcessMessage_fn
      [Sample.generation None;
       {| callbacks := [OnSetup; OnClose; OnCleanup]; result := None |};
       Sample.generation None]
      (Sample.consumer Sample.library false false, Sample.heap)
    = Ret Stopped s
    /\ List.length (filter is_Consume (trace (snd s))) = 2%nat
    /\ GetNumberOfSuccessfullyConsumedMessages (fst s) = 1.
Proof. eexists. split; [vm_compute; reflexivity|]. split; reflexivity. Qed.

(** The spec's scenario: one message whose processing fails is counted as an
    error, and is marked once all the same. *)
Example failed_message_is_marked_once :
  exists s',
    ConsumeClaim (L := Sample.library) Sample.clock (Sample.fail_at [7])
      (Sample.claim [Some (Sample.message 7 "x")])
      (Sample.consumer Sample.library false false, Sample.heap) = Ret None s'
    /\ GetNumberOfSuccessfullyConsumedMessages (fst s') = 0
    /\ GetNumberOfErrorsConsumingMessages (fst s') = 1
    /\ filter is_claim_step (trace (snd s')) =
         [EvHandleMessage (Some (Sample.message 7 "x"));
          EvMarkMessage (Some (Sample.message 7 "x")) ""].
Proof.
  eexists. split; [vm_compute; reflexivity|].
  repeat split; vm_compute; reflexivity.
Qed.


(** * The lifecycle as a whole *)

Section Lifecycle.

Context {L : sarama.Library}.
Variable time_Now : nat -> Z.
Variable process : Processor.

(** ** A relation kept by every step is kept by every method *)

Section Kept.

Variable R : State -> State -> Prop.
Hypothesis R_refl : forall s, R s s.
Hypothesis R_trans : forall s1 s2 s3, R s1 s2 -> R s2 s3 -> R s1 s3.

Hypothesis R_emit : forall e, Keeps R (emit e).
Hypothesis R_time_now : Keeps R (time_now time_Now).
Hypothesis R_make_chan : Keeps R make_chan.
Hypothesis R_close_chan : forall ch, Keeps R (close_chan ch).
Hypothesis R_call_cancel : forall f, Keeps R (call_cancel f).
Hypothesis R_set_Ready : forall r, Keeps R (update (set_Ready r)).
Hypothesis R_set_ConsumerGroup :
  forall g, Keeps R (update (set_ConsumerGroup (Some g))).

Lemma Keeps_ret {A} (a : A) : Keeps R (ret a).
Proof. intro s. apply R_refl. Qed.

Lemma Keeps_bind {A B} (m : M A) (f : A -> M B) :
  Keeps R m -> (forall a, Keeps R (f a)) -> Keeps R (bind m f).
Proof.
  intros Hm Hf s. unfold bind. specialize (Hm s).
  destruct (m s) as [a s'|r s'|code s']; simpl in *; try exact Hm.
  eapply R_trans; [exact Hm|apply Hf].
Qed.

Lemma Keeps_self : Keeps R self.
Proof. intro s. apply R_refl. Qed.

Lemma Keeps_panic {A} (r : string) : Keeps R (@panic L A r).
Proof. intro s. apply R_refl. Qed.

Lemma Keeps_os_Exit {A} (code : Z) : Keeps R (@os_Exit L A code).
Proof. intro s. apply R_refl. Qed.

Lemma Keeps_ctx_Err (ctx : nat) : Keeps R (ctx_Err ctx).
Proof. intro s. apply R_refl. Qed.

Lemma Keeps_log (lv : Level) (fs : list Field) (t : Text) : Keeps R (log lv fs t).
Proof. apply R_emit. Qed.

Lemma Keeps_emit_logs (ls : list LogEntry) : Keeps R (emit_logs ls).
Proof.
  induction ls as [|l ls IH]; [apply Keeps_ret|].
  apply Keeps_bind; [apply R_emit|intros _; exact IH].
Qed.

Ltac kept :=
  repeat first
    [ solve [auto]
    | apply Keeps_ret | apply Keeps_self | apply Keeps_panic
    | apply Keeps_os_Exit | apply Keeps_ctx_Err | apply Keeps_log
    | apply Keeps_emit_logs | apply R_emit | apply R_close_chan
    | apply R_call_cancel | apply R_set_Ready | apply R_set_ConsumerGroup
    | apply Keeps_bind; [|intro]
    | match goal with
      | |- Keeps _ (match ?x with _ => _ end) => destruct x
      end ].

Lemma Keeps_Setup : Keeps R Setup.
Proof. unfold Setup. kept. Qed.

Lemma Keeps_Cleanup : Keeps R Cleanup.
Proof. unfold Cleanup. kept. Qed.

Lemma Keeps_run_processor (p : Processor) (m : sarama.ConsumerMessage) :
  Keeps R (run_processor p m).
Proof. unfold run_processor. kept. Qed.

Lemma Keeps_ProcessMessage (msg : option sarama.ConsumerMessage) :
  Keeps R (ProcessMessage msg).
Proof.
  destruct msg; simpl; [apply Keeps_run_processor|apply Keeps_panic].
Qed.

Lemma Keeps_Close : Keeps R Close.
Proof. unfold Close. kept. Qed.

(** [HandleMessage] keeps what both increments keep. *)
Lemma Keeps_HandleMessage (msg : option sarama.ConsumerMessage) :
  Keeps R (update incr_successes) -> Keeps R (update incr_errors) ->
  Keeps R (HandleMessage time_Now process msg).
Proof.
  intros Hs He. pose proof Keeps_run_processor.
  unfold HandleMessage. kept.
Qed.

(** From here on, what [HandleMessage] keeps is assumed as such: with a
    processing function that never fails it keeps more than the increment
    of the error counter does. *)
Hypothesis R_HandleMessage :
  forall msg, Keeps R (HandleMessage time_Now process msg).

Lemma Keeps_messages_loop (msgs : list (option sarama.ConsumerMessage)) :
  Keeps R (messages_loop time_Now process msgs).
Proof.
  induction msgs as [|msg msgs IH]; cbn [messages_loop]; unfold MarkMessage; kept.
Qed.

Lemma Keeps_ConsumeClaim (claim : sarama.ConsumerGroupClaim) :
  Keeps R (ConsumeClaim time_Now process claim).
Proof.
  pose proof Keeps_messages_loop.
  unfold ConsumeClaim. kept.
Qed.

Lemma Keeps_run_callback (cb : Callback) :
  Keeps R (run_callback time_Now process cb).
Proof.
  pose proof Keeps_Setup. pose proof Keeps_Cleanup.
  pose proof Keeps_Close. pose proof Keeps_ConsumeClaim.
  destruct cb; cbn [run_callback]; kept.
Qed.

Lemma Keeps_run_callbacks (cbs : list Callback) :
  Keeps R (run_callbacks time_Now process cbs).
Proof.
  pose proof Keeps_run_callback.
  induction cbs as [|cb cbs IH]; cbn [run_callbacks]; kept.
Qed.

Lemma Keeps_Consume_enter (topics : list string) : Keeps R (Consume_enter topics).
Proof. unfold Consume_enter. kept. Qed.

Lemma Keeps_Consume (topics : list string) (call : ConsumeCall) :
  Keeps R (Consume time_Now process topics call).
Proof.
  pose proof Keeps_Consume_enter. pose proof Keeps_run_callbacks.
  unfold Consume. kept.
Qed.

Lemma Keeps_after_Consume (ctx : nat) (err : option error) :
  Keeps R (after_Consume ctx err).
Proof. unfold after_Consume. kept. Qed.

Lemma Keeps_driver_loop (ctx : nat) (script : list ConsumeCall) :
  Keeps R (driver_loop time_Now process ctx script).
Proof.
  pose proof Keeps_Consume_enter. pose proof Keeps_Consume.
  pose proof Keeps_after_Consume.
  induction script as [|call rest IH]; cbn [driver_loop]; kept.
Qed.

(** Every operation but [Serve], which makes a context and stores its
    cancellation handle. *)
Lemma Keeps_run_op (op : Op) :
  (forall script, op <> OpServe script) ->
  Keeps R (run_op time_Now process op).
Proof.
  pose proof Keeps_Setup. pose proof Keeps_Cleanup.
  pose proof Keeps_ConsumeClaim.
  pose proof Keeps_ProcessMessage. pose proof Keeps_Close.
  intro Hop. destruct op; [now destruct (Hop script)|..]; cbn [run_op]; kept.
Qed.

Lemma Keeps_run_ops (ops : list Op) :
  forallb not_Serve ops = true ->
  Keeps R (run_ops time_Now process ops).
Proof.
  induction ops as [|op ops IH]; cbn [run_ops forallb]; intro Hops;
    [apply Keeps_ret|].
  apply andb_prop in Hops. destruct Hops as (Hop & Hops).
  apply Keeps_bind; [|intro v; apply Keeps_bind; [auto|intro; apply Keeps_ret]].
  apply Keeps_run_op. intros script ->. discriminate Hop.
Qed.

(** [Serve] too, when making a context and storing its cancellation handle
    keep the relation. *)
Hypothesis R_context_WithCancel : Keeps R context_WithCancel.
Hypothesis R_set_Cancel : forall f, Keeps R (update (set_Cancel f)).

Lemma Keeps_Serve (script : list ConsumeCall) :
  Keeps R (Serve time_Now process script).
Proof.
  pose proof Keeps_driver_loop.
  unfold Serve. kept.
Qed.

Lemma Keeps_any_op (op : Op) : Keeps R (run_op time_Now process op).
Proof.
  pose proof Keeps_Serve. pose proof Keeps_Setup. pose proof Keeps_Cleanup.
  pose proof Keeps_ConsumeClaim.
  pose proof Keeps_ProcessMessage. pose proof Keeps_Close.
  destruct op; cbn [run_op]; kept.
Qed.

Lemma Keeps_any_ops (ops : list Op) : Keeps R (run_ops time_Now process ops).
Proof.
  pose proof Keeps_any_op.
  induction ops as [|op ops IH]; cbn [run_ops]; kept.
Qed.

End Kept.

(** ** The cancellation handle and the contexts *)

Lemma nth_set_flag_same (i : nat) (l : list bool) :
  (i < List.length l)%nat -> nth i (set_flag i l) false = true.
Proof.
  revert i. induction l as [|b l IH]; intros [|i] Hi; simpl in *;
    try lia; auto. apply IH. lia.
Qed.

Lemma nth_set_flag_mono (i j : nat) (l : list bool) :
  nth j l false = true -> nth j (set_flag i l) false = true.
Proof.
  revert i j. induction l as [|b l IH]; intros [|i] [|j] Hj; simpl in *; auto.
Qed.

Lemma nth_set_flag_other (i j : nat) (l : list bool) :
  j <> i -> nth j (set_flag i l) false = nth j l false.
Proof.
  revert i j. induction l as [|b l IH]; intros [|i] [|j] Hij; simpl;
    try reflexivity; try congruence.
  apply IH. congruence.
Qed.

Lemma lifecycle_refl (s : State) : lifecycle s s.
Proof. repeat split; auto. Qed.

Lemma lifecycle_trans (s1 s2 s3 : State) :
  lifecycle s1 s2 -> lifecycle s2 s3 -> lifecycle s1 s3.
Proof.
  intros (Hc & Hl & Hm) (Hc' & Hl' & Hm').
  repeat split; try congruence. auto.
Qed.

Ltac same_contexts :=
  intros [c h]; repeat split; cbn; auto.

Lemma lifecycle_emit (e : Event) : Keeps lifecycle (emit e).
Proof. same_contexts. Qed.

Lemma lifecycle_time_now : Keeps lifecycle (time_now time_Now).
Proof. same_contexts. Qed.

Lemma lifecycle_make_chan : Keeps lifecycle make_chan.
Proof. same_contexts. Qed.

Lemma lifecycle_close_chan (ch : option nat) : Keeps lifecycle (close_chan ch).
Proof.
  intros [c h]. unfold close_chan. cbn [fst snd].
  destruct ch as [i|]; [destruct (nth_error (chans h) i) as [[|]|]|];
    repeat split; auto.
Qed.

Lemma lifecycle_call_cancel (f : option nat) : Keeps lifecycle (call_cancel f).
Proof.
  destruct f as [i|]; intros [c h]; [|apply lifecycle_refl].
  repeat split; cbn [call_cancel bind emit final fst snd ctxs heap_emit].
  - apply set_flag_length.
  - intro j. unfold cancelled. cbn [ctxs]. apply nth_set_flag_mono.
Qed.

Lemma lifecycle_incr_successes : Keeps lifecycle (update incr_successes).
Proof. same_contexts. Qed.

Lemma lifecycle_incr_errors : Keeps lifecycle (update incr_errors).
Proof. same_contexts. Qed.

Lemma lifecycle_set_Ready (r : option nat) : Keeps lifecycle (update (set_Ready r)).
Proof. same_contexts. Qed.

Lemma lifecycle_set_ConsumerGroup (g : sarama.ConsumerGroup) :
  Keeps lifecycle (update (set_ConsumerGroup (Some g))).
Proof. same_contexts. Qed.

Create HintDb lifecycle.

Lemma lifecycle_HandleMessage (msg : option sarama.ConsumerMessage) :
  Keeps lifecycle (HandleMessage time_Now process msg).
Proof.
  apply Keeps_HandleMessage;
    eauto using lifecycle_refl, lifecycle_trans, lifecycle_emit,
      lifecycle_time_now, lifecycle_incr_successes, lifecycle_incr_errors.
Qed.

#[local] Hint Resolve lifecycle_refl lifecycle_trans lifecycle_emit
  lifecycle_time_now lifecycle_make_chan lifecycle_close_chan
  lifecycle_call_cancel lifecycle_HandleMessage
  lifecycle_set_Ready lifecycle_set_ConsumerGroup : lifecycle.

Lemma lifecycle_run_callbacks (cbs : list Callback) :
  Keeps lifecycle (run_callbacks time_Now process cbs).
Proof. apply Keeps_run_callbacks; eauto with lifecycle. Qed.



Lemma lifecycle_run_ops (ops : list Op) :
  forallb not_Serve ops = true ->
  Keeps lifecycle (run_ops time_Now process ops).
Proof. apply Keeps_run_ops; eauto with lifecycle. Qed.

Lemma lifecycle_run_callback (cb : Callback) :
  Keeps lifecycle (run_callback time_Now process cb).
Proof. apply Keeps_run_callback; eauto with lifecycle. Qed.

(** ** [Close] while the driver is serving *)

Lemma Close_cancels (c : KafkaConsumer) (h : Heap) (ctx : nat) :
  Cancel c = Some ctx -> (ctx < List.length (ctxs h))%nat ->
  exists s', Close (c, h) = Ret None s' /\ cancelled ctx (snd s') = true.
Proof.
  intros Hc Hctx.
  destruct (Close_run c h) as (s' & evs & Hrun & _ & _ & _ & _ & _ & Hset & _).
  exists s'. split; [exact Hrun|].
  unfold cancelled. rewrite (Hset ctx Hc). now apply nth_set_flag_same.
Qed.

Lemma run_callbacks_cons (cb : Callback) (cbs : list Callback) (s s1 : State) :
  run_callbacks time_Now process (cb :: cbs) s = Ret tt s1 ->
  exists s',
    run_callback time_Now process cb s = Ret tt s'
    /\ run_callbacks time_Now process cbs s' = Ret tt s1.
Proof.
  cbn [run_callbacks]. unfold bind.
  destruct (run_callback time_Now process cb s) as [[] s'| |]; try discriminate.
  intro H. exists s'. split; [reflexivity|exact H].
Qed.

(** Callbacks among which [Close] is called leave the context of the stored
    cancellation handle cancelled. *)
Lemma run_callbacks_Close (cbs : list Callback) (ctx : nat) (s s1 : State) :
  Cancel (fst s) = Some ctx -> (ctx < List.length (ctxs (snd s)))%nat ->
  In OnClose cbs ->
  run_callbacks time_Now process cbs s = Ret tt s1 ->
  cancelled ctx (snd s1) = true.
Proof.
  revert s. induction cbs as [|cb cbs IH]; intros s Hc Hctx Hin Hrun;
    [destruct Hin|].
  destruct (run_callbacks_cons cb cbs s s1 Hrun) as (s' & Hcb & Hrest).
  destruct Hin as [->|Hin].
  - destruct s as [c h]. cbn [fst snd] in Hc, Hctx.
    destruct (Close_cancels c h ctx Hc Hctx) as (s2 & HClose & Hcancelled).
    cbn [run_callback] in Hcb. unfold bind in Hcb. rewrite HClose in Hcb.
    inversion Hcb; subst s2.
    pose proof (lifecycle_run_callbacks cbs s') as (_ & _ & Hmono).
    rewrite Hrest in Hmono. now apply Hmono.
  - pose proof (lifecycle_run_callback cb s) as (Hc' & Hl' & _).
    rewrite Hcb in Hc', Hl'. cbn [final] in Hc', Hl'.
    apply (IH s'); try assumption; congruence.
Qed.

Lemma driver_stops_after_Close (ctx : nat) (call : ConsumeCall)
    (rest : list ConsumeCall) (s s1 : State) :
  Cancel (fst s) = Some ctx -> (ctx < List.length (ctxs (snd s)))%nat ->
  In OnClose (callbacks call) ->
  Consume time_Now process [Topic (Configuration (fst s))] call s = Ret None s1 ->
  driver_loop time_Now process ctx (call :: rest) s =
    Ret Stopped (fst s1, heap_emit [stopping_log] (snd s1))
  /\ cancelled ctx (snd s1) = true.
Proof.
  intros Hc Hctx Hin HC.
  assert (Hcancelled : cancelled ctx (snd s1) = true).
  { revert HC. unfold Consume, bind at 1.
    destruct (Consume_enter [Topic (Configuration (fst s))] s) as [[] s0| |] eqn:He;
      try discriminate.
    pose proof (Keeps_Consume_enter lifecycle lifecycle_refl lifecycle_trans
                  lifecycle_emit [Topic (Configuration (fst s))] s) as (Hc0 & Hl0 & _).
    rewrite He in Hc0, Hl0. cbn [final] in Hc0, Hl0.
    unfold bind at 1.
    destruct (run_callbacks time_Now process (callbacks call) s0) as [[] s2| |] eqn:Hr;
      try discriminate.
    unfold ret. intro H; inversion H; subst s2.
    apply (run_callbacks_Close (callbacks call) ctx s0 s1); try assumption;
      congruence. }
  split; [|exact Hcancelled].
  rewrite (driver_loop_cons time_Now process ctx call rest s s1 None HC).
  now rewrite after_Consume_cancelled.
Qed.

(** Once [Close] has been called while [Consume] was blocked, and [Consume]
    returns without an error, the driver stops: it logs that and returns,
    and no further call of [Consume] is made. *)
Theorem Close_stops_the_driver (ctx : nat) (call : ConsumeCall)
    (rest : list ConsumeCall) (s s1 : State) :
  Cancel (fst s) = Some ctx -> (ctx < List.length (ctxs (snd s)))%nat ->
  In OnClose (callbacks call) ->
  Consume time_Now process [Topic (Configuration (fst s))] call s = Ret None s1 ->
  driver_loop time_Now process ctx (call :: rest) s =
    Ret Stopped (fst s1, heap_emit [stopping_log] (snd s1))
  /\ cancelled ctx (snd s1) = true.
Proof. apply driver_stops_after_Close. Qed.

(** [Close] on a consumer that holds a cancellation handle returns nil and
    cancels the context of that handle, and no other context. *)
Theorem Close_cancels_the_stored_context (c : KafkaConsumer) (h : Heap)
    (ctx : nat) :
  Cancel c = Some ctx -> (ctx < List.length (ctxs h))%nat ->
  exists s',
    Close (c, h) = Ret None s'
    /\ cancelled ctx (snd s') = true
    /\ (forall other, other <> ctx ->
          cancelled other (snd s') = cancelled other h)
    /\ In (EvCancel ctx) (trace (snd s')).
Proof.
  intros Hc Hctx.
  destruct (Close_run c h)
    as (s' & evs & Hrun & Htr & _ & _ & _ & _ & Hset & _).
  exists s'. split; [exact Hrun|].
  unfold cancelled. rewrite (Hset ctx Hc).
  split; [now apply nth_set_flag_same|].
  split; [intros other Hother; now apply nth_set_flag_other|].
  revert Hrun.
  unfold Close, bind, self, call_cancel, bind, emit. cbn [fst snd].
  rewrite Hc. cbn [fst snd].
  destruct (ConsumerGroup c) as [g|];
    [destruct (snd (sarama.ConsumerGroup_Close g))|];
    cbn [fst snd update log emit ret heap_emit trace];
    intro H; inversion H; subst s'; unfold heap_emit; cbn [snd trace];
    rewrite <- ?app_assoc; apply in_or_app; right; now left.
Qed.

(** ** From the constructor to the end of [Serve] *)

(** The constructor returns a consumer or an error, never both: the error
    is the library's, and then no channel is made; the consumer has both
    counters at zero, no cancellation handle, the client the library made,
    the configuration and the verbose flag it was given, and a ready signal
    made for it, which has not fired.  Either way one entry is logged. *)
Theorem NewWithSaramaConfig_outcome (brokerCfg : BrokerConfiguration)
    (saramaConfig : option sarama.Config) (verbose : bool) (h0 : Heap) :
  trace (snd (NewWithSaramaConfig brokerCfg saramaConfig verbose h0))
    = trace h0 ++ [configuration_log brokerCfg]
  /\ ctxs (snd (NewWithSaramaConfig brokerCfg saramaConfig verbose h0)) = ctxs h0
  /\ match sarama.NewConsumerGroup [Address brokerCfg] (Group brokerCfg)
             (client_config saramaConfig) with
     | inr err =>
         fst (NewWithSaramaConfig brokerCfg saramaConfig verbose h0)
           = (None, Some err)
         /\ chans (snd (NewWithSaramaConfig brokerCfg saramaConfig verbose h0))
              = chans h0
     | inl g =>
         exists c ready,
           fst (NewWithSaramaConfig brokerCfg saramaConfig verbose h0)
             = (Some c, None)
           /\ Configuration c = brokerCfg /\ Verbose c = verbose
           /\ ConsumerGroup c = Some g /\ Cancel c = None
           /\ GetNumberOfSuccessfullyConsumedMessages c = 0
           /\ GetNumberOfErrorsConsumingMessages c = 0
           /\ Ready c = Some ready
           /\ nth_error (chans h0) ready = None
           /\ unfired ready
                (snd (NewWithSaramaConfig brokerCfg saramaConfig verbose h0))
     end.
Proof.
  unfold NewWithSaramaConfig, client_config, configuration_log.
  destruct (sarama.NewConsumerGroup _ _ _) as [g|err];
    cbn [fst snd heap_make_chan heap_emit trace ctxs chans].
  - split; [reflexivity|]. split; [reflexivity|].
    eexists; eexists. split; [reflexivity|].
    cbn [Configuration Verbose ConsumerGroup Cancel Ready].
    unfold GetNumberOfSuccessfullyConsumedMessages,
      GetNumberOfErrorsConsumingMessages, unfired. cbn.
    repeat split.
    + apply nth_error_None. lia.
    + rewrite nth_error_app2 by lia. now rewrite Nat.sub_diag.
  - repeat split.
Qed.









(** ** [Setup] *)

Lemma nth_error_set_flag_same (i : nat) (l : list bool) (b : bool) :
  nth_error l i = Some b -> nth_error (set_flag i l) i = Some true.
Proof.
  revert i. induction l as [|x l IH]; intros [|i] Hi; simpl in *;
    try discriminate; auto.
Qed.

Lemma nth_error_set_flag_other (i j : nat) (l : list bool) :
  i <> j -> nth_error (set_flag i l) j = nth_error l j.
Proof.
  revert i j. induction l as [|x l IH]; intros [|i] [|j] Hij; simpl;
    try reflexivity; try congruence.
  apply IH. congruence.
Qed.

(** [Setup] returns exactly when the consumer's [Ready] is a channel that
    has not been closed.  Otherwise it panics, having logged its entry: on
    a nil [Ready] with "close of nil channel", on a closed one with "close
    of closed channel"; it never halts the process. *)
Theorem Setup_returns_iff_unfired (c : KafkaConsumer) (h : Heap) :
  ((exists s', Setup (c, h) = Ret None s')
   <-> (exists ready, Ready c = Some ready /\ unfired ready h))
  /\ (Ready c = None ->
      Setup (c, h) = Panic "close of nil channel" (c, heap_emit [setup_log] h))
  /\ (forall ready,
        Ready c = Some ready -> nth_error (chans h) ready = Some true ->
        Setup (c, h)
        = Panic "close of closed channel" (c, heap_emit [setup_log] h))
  /\ ((forall ready, ~ (Ready c = Some ready /\ unfired ready h)) ->
      exists reason, Setup (c, h) = Panic reason (c, heap_emit [setup_log] h)).
Proof.
  unfold Setup, bind, log, emit, self, close_chan, ret, unfired, setup_log.
  cbn [fst snd heap_emit chans].
  destruct (Ready c) as [ready|].
  - destruct (nth_error (chans h) ready) as [[|]|] eqn:Hch.
    + split; [split|].
      * intros (s' & H); discriminate H.
      * intros (r & Hr & H); inversion Hr; subst r; rewrite Hch in H;
          discriminate H.
      * split; [discriminate|]. split; [reflexivity|].
        intros _. eexists; reflexivity.
    + split; [split|].
      * intros _. now exists ready.
      * intros _. eexists; reflexivity.
      * split; [discriminate|].
        split; [intros r Hr H; inversion Hr; subst r; rewrite Hch in H;
                discriminate H|].
        intro Hnot. destruct (Hnot ready). now split.
    + split; [split|].
      * intros (s' & H); discriminate H.
      * intros (r & Hr & H); inversion Hr; subst r; rewrite Hch in H;
          discriminate H.
      * split; [discriminate|].
        split; [intros r Hr H; inversion Hr; subst r; rewrite Hch in H;
                discriminate H|].
        intros _. eexists; reflexivity.
  - split; [split|].
    + intros (s' & H); discriminate H.
    + intros (r & Hr & _); discriminate Hr.
    + split; [reflexivity|]. split; [discriminate|].
      intros _. eexists; reflexivity.
Qed.

(** [Setup] on a ready signal that has not fired logs, closes that channel
    and no other, changes nothing of the consumer and returns nil; a second
    [Setup] on the same ready signal panics. *)
Theorem Setup_fires_once (c : KafkaConsumer) (h : Heap) (ready : nat) :
  Ready c = Some ready -> unfired ready h ->
  exists h',
    Setup (c, h) = Ret None (c, h')
    /\ trace h' = trace h ++ [setup_log]
    /\ nth_error (chans h') ready = Some true
    /\ (forall ch, ch <> ready -> nth_error (chans h') ch = nth_error (chans h) ch)
    /\ ctxs h' = ctxs h
    /\ exists s'', Setup (c, h') = Panic "close of closed channel" s''.
Proof.
  intros Hr Hopen. unfold unfired in Hopen.
  unfold Setup, bind, log, emit, self, close_chan, ret.
  cbn [fst snd heap_emit chans]. rewrite Hr, Hopen.
  eexists. split; [reflexivity|]. cbn [trace chans ctxs].
  split; [reflexivity|].
  split; [eapply nth_error_set_flag_same; exact Hopen|].
  split; [intros ch Hch; apply nth_error_set_flag_other; congruence|].
  split; [reflexivity|].
  rewrite (nth_error_set_flag_same ready (chans h) false Hopen).
  eexists; reflexivity.
Qed.

(** ** [HandleMessage] and [ConsumeClaim] *)

(** On a message that is not nil [HandleMessage] reads the clock twice,
    counts the message once (as an error when processing returned one, as a
    success otherwise) and ends with the summary entry, which carries the
    counters as they are after the count and the time between the two
    readings; an error is logged before it. *)
Theorem HandleMessage_summary (m : sarama.ConsumerMessage)
    (c : KafkaConsumer) (h : Heap) :
  exists s' evs,
    HandleMessage time_Now process (Some m) (c, h) = Ret tt s'
    /\ trace (snd s') =
         trace h ++ evs
         ++ [summary_log (fst s') m (time_Now (S (ticks h)) - time_Now (ticks h))]
    /\ ticks (snd s') = S (S (ticks h))
    /\ match snd (process (Verbose c) m) with
       | Some err => fst s' = incr_errors c /\ In (processing_error_log err) evs
       | None => fst s' = incr_successes c
       end.
Proof.
  unfold HandleMessage, run_processor, bind, emit, log, emit, self, time_now,
    update, ret; simpl.
  rewrite emit_logs_run; simpl.
  destruct (snd (process (Verbose c) m)) as [e|]; simpl.
  - eexists.
    exists ([EvHandleMessage (Some m);
             EvLog {| level := InfoLevel;
                      fields := [FInt64 offsetKey (sarama.Offset m);
                                 FInt32 partitionKey (sarama.Partition m);
                                 FStr topicKey (sarama.Topic m);
                                 FTime "message_timestamp" (sarama.Timestamp m)];
                      text := Msg "Started processing message" |};
             EvProcessMessage m]
            ++ map EvLog (fst (process (Verbose c) m))
            ++ [processing_error_log e]).
    split; [reflexivity|]. cbn [fst snd trace ticks heap_emit].
    split; [now rewrite <- !app_assoc|].
    split; [reflexivity|]. split; [reflexivity|].
    apply in_or_app. right. apply in_or_app. right. now left.
  - eexists.
    exists ([EvHandleMessage (Some m);
             EvLog {| level := InfoLevel;
                      fields := [FInt64 offsetKey (sarama.Offset m);
                                 FInt32 partitionKey (sarama.Partition m);
                                 FStr topicKey (sarama.Topic m);
                                 FTime "message_timestamp" (sarama.Timestamp m)];
                      text := Msg "Started processing message" |};
             EvProcessMessage m]
            ++ map EvLog (fst (process (Verbose c) m))).
    split; [reflexivity|]. cbn [fst snd trace ticks heap_emit].
    split; [now rewrite <- !app_assoc|].
    split; reflexivity.
Qed.

(** [ConsumeClaim] returns nil whatever processing returns, and changes
    nothing of the consumer but the two counters: the ready signal, the
    cancellation handle, the client, the configuration and the verbose flag
    are as before, and no channel or context is touched. *)
Theorem ConsumeClaim_touches_only_counters (claim : sarama.ConsumerGroupClaim)
    (c : KafkaConsumer) (h : Heap) :
  exists s',
    ConsumeClaim time_Now process claim (c, h) = Ret None s'
    /\ Ready (fst s') = Ready c /\ Cancel (fst s') = Cancel c
    /\ ConsumerGroup (fst s') = ConsumerGroup c
    /\ Configuration (fst s') = Configuration c
    /\ Verbose (fst s') = Verbose c
    /\ chans (snd s') = chans h /\ ctxs (snd s') = ctxs h.
Proof.
  destruct (ConsumeClaim_run time_Now process claim c h) as (evs & n & -> & _).
  eexists. split; [reflexivity|]. repeat split.
Qed.

(** ** What no operation changes *)

(** Through any run of operations, however it ends, the configuration and
    the verbose flag of the consumer are what they were, and a consumer
    that had a consumer-group client still has one. *)
Theorem configuration_never_changes (ops : list Op) (s : State) :
  Configuration (fst (final (run_ops time_Now process ops s)))
    = Configuration (fst s)
  /\ Verbose (fst (final (run_ops time_Now process ops s))) = Verbose (fst s)
  /\ (ConsumerGroup (fst s) <> None ->
      ConsumerGroup (fst (final (run_ops time_Now process ops s))) <> None).
Proof.
  destruct (Grows_run_ops time_Now process ops s)
    as (a & b & _ & _ & _ & Hcfg & Hv & Hg).
  repeat split; assumption.
Qed.

(** Only [Serve] sets the cancellation handle and makes a context: through
    any run of other operations the handle is what it was and the contexts
    are the same in number, and one that was cancelled still is. *)
Theorem only_Serve_sets_Cancel (ops : list Op) (s : State) :
  forallb not_Serve ops = true ->
  Cancel (fst (final (run_ops time_Now process ops s))) = Cancel (fst s)
  /\ List.length (ctxs (snd (final (run_ops time_Now process ops s))))
     = List.length (ctxs (snd s))
  /\ forall ctx,
       cancelled ctx (snd s) = true ->
       cancelled ctx (snd (final (run_ops time_Now process ops s))) = true.
Proof. intro Hops. exact (lifecycle_run_ops ops Hops s). Qed.

End Lifecycle.

(** * The program with its own [ProcessMessage] *)

Section Baseline.

Context {L : sarama.Library}.
Variable time_Now : nat -> Z.

(** ** The error counter *)

Lemma same_errors_refl (s : State) : same_errors s s.
Proof. reflexivity. Qed.

Lemma same_errors_trans (s1 s2 s3 : State) :
  same_errors s1 s2 -> same_errors s2 s3 -> same_errors s1 s3.
Proof. unfold same_errors. congruence. Qed.

Lemma same_errors_frame {A} (m : M A) :
  (forall s, numberOfErrorsConsumingMessages (fst (final (m s)))
             = numberOfErrorsConsumingMessages (fst s)) ->
  Keeps same_errors m.
Proof. intros H s. apply H. Qed.

Lemma same_errors_HandleMessage (msg : option sarama.ConsumerMessage) :
  Keeps same_errors (HandleMessage time_Now ProcessMessage_fn msg).
Proof.
  intros [c h]. unfold same_errors. destruct msg as [m|].
  - destruct (HandleMessage_Some time_Now ProcessMessage_fn m c h)
      as (evs & n & -> & _).
    reflexivity.
  - now rewrite HandleMessage_nil.
Qed.

(** With the program's own [ProcessMessage], which never returns an error,
    the error counter never changes: after any run of operations, however
    it ends, [GetNumberOfErrorsConsumingMessages] returns what it returned
    before. *)
Theorem error_counter_never_moves (ops : list Op) (s : State) :
  GetNumberOfErrorsConsumingMessages
    (fst (final (run_ops time_Now ProcessMessage_fn ops s)))
  = GetNumberOfErrorsConsumingMessages (fst s).
Proof.
  apply (Keeps_any_ops time_Now ProcessMessage_fn same_errors);
    first
      [ apply same_errors_refl
      | apply same_errors_trans
      | apply same_errors_HandleMessage
      | intros; intros [c h];
        match goal with
        | |- same_errors _ (final (close_chan ?ch _)) =>
            unfold close_chan; cbn [fst snd];
            destruct ch as [i|];
            [destruct (nth_error (chans h) i) as [[|]|]|]; reflexivity
        | |- same_errors _ (final (call_cancel ?f _)) =>
            destruct f; reflexivity
        | _ => reflexivity
        end ].
Qed.

(** ** The verbose flag *)

Lemma mute_app (a b : list Event) : mute (a ++ b) = mute a ++ mute b.
Proof. apply filter_app. Qed.

Lemma Hushed_ret {A} (a : A) : Hushed (ret a).
Proof. intro s. reflexivity. Qed.

Lemma Hushed_bind {A B} (m : M A) (f : A -> M B) :
  Hushed m -> (forall a, Hushed (f a)) -> Hushed (bind m f).
Proof.
  intros Hm Hf s. unfold bind. rewrite Hm.
  destruct (m s) as [a s'|r s'|code s']; simpl; [apply Hf|reflexivity|reflexivity].
Qed.

(** Reading the receiver: what follows may use any field of it but
    [Verbose]. *)
Lemma Hushed_self_bind {B} (k : KafkaConsumer -> M B) :
  (forall c s, k (set_Verbose false c) s = k c s) ->
  (forall c, Hushed (k c)) -> Hushed (bind self k).
Proof.
  intros Hk Hh s. unfold bind, self. cbn [fst hush].
  rewrite Hk. apply Hh.
Qed.

Lemma Hushed_emit (e : Event) : is_content_log e = false -> Hushed (emit e).
Proof.
  intros He [c h]. unfold emit, outcome_hush, hush, heap_emit.
  cbn [fst snd trace chans ctxs ticks].
  rewrite mute_app. unfold mute at 3. cbn [filter]. now rewrite He.
Qed.

Lemma Hushed_log (lv : Level) (fs : list Field) (t : Text) :
  is_content_log (EvLog {| level := lv; fields := fs; text := t |}) = false ->
  Hushed (log lv fs t).
Proof. apply Hushed_emit. Qed.

Lemma Hushed_panic {A} (r : string) : Hushed (@panic L A r).
Proof. intro s. reflexivity. Qed.

Lemma Hushed_os_Exit {A} (code : Z) : Hushed (@os_Exit L A code).
Proof. intro s. reflexivity. Qed.

Lemma Hushed_time_now : Hushed (time_now time_Now).
Proof. intro s. reflexivity. Qed.

Lemma Hushed_make_chan : Hushed make_chan.
Proof. intro s. reflexivity. Qed.

Lemma Hushed_ctx_Err (ctx : nat) : Hushed (ctx_Err ctx).
Proof. intro s. reflexivity. Qed.

Lemma Hushed_context_WithCancel : Hushed context_WithCancel.
Proof. intro s. reflexivity. Qed.

Lemma Hushed_close_chan (ch : option nat) : Hushed (close_chan ch).
Proof.
  intros [c h]. unfold close_chan. cbn [fst snd hush chans].
  destruct ch as [i|]; [|reflexivity].
  destruct (nth_error (chans h) i) as [[|]|]; reflexivity.
Qed.

Lemma Hushed_call_cancel (f : option nat) : Hushed (call_cancel f).
Proof.
  destruct f as [i|]; [|apply Hushed_panic].
  apply Hushed_bind; [now apply Hushed_emit|intros _ s; reflexivity].
Qed.

Lemma Hushed_update (f : KafkaConsumer -> KafkaConsumer) :
  (forall c, f (set_Verbose false c) = set_Verbose false (f c)) ->
  Hushed (update f).
Proof.
  intros Hf [c h]. unfold update, hush, outcome_hush. cbn [fst snd].
  now rewrite Hf.
Qed.

(** [ProcessMessage] itself: the verbose consumer logs the payload after its
    length, the other one does not. *)
Lemma Hushed_run_processor (m : sarama.ConsumerMessage) :
  Hushed (run_processor ProcessMessage_fn m).
Proof.
  intros [c h].
  unfold run_processor, bind, self, emit, ret, outcome_hush, hush.
  cbn [fst snd set_Verbose Verbose]. rewrite !emit_logs_run.
  unfold heap_emit.
  cbn [fst snd trace chans ctxs ticks ProcessMessage_fn].
  destruct (Verbose c); cbn [map]; rewrite !mute_app; reflexivity.
Qed.

Create HintDb hushed.

#[local] Hint Resolve Hushed_ret Hushed_panic Hushed_os_Exit Hushed_time_now
  Hushed_make_chan Hushed_ctx_Err Hushed_context_WithCancel Hushed_close_chan
  Hushed_call_cancel Hushed_run_processor : hushed.

Ltac hushed :=
  repeat first
    [ solve [auto with hushed]
    | apply Hushed_emit; reflexivity
    | apply Hushed_log; reflexivity
    | apply Hushed_update; reflexivity
    | apply Hushed_self_bind; [reflexivity|intro]
    | apply Hushed_bind; [|intro]
    | match goal with
      | |- Hushed (match ?x with _ => _ end) => destruct x
      end ].

Lemma Hushed_Setup : Hushed Setup.
Proof. unfold Setup. hushed. Qed.

Lemma Hushed_Cleanup : Hushed Cleanup.
Proof. unfold Cleanup. hushed. Qed.

Lemma Hushed_ProcessMessage (msg : option sarama.ConsumerMessage) :
  Hushed (ProcessMessage msg).
Proof.
  destruct msg; simpl; [apply Hushed_run_processor|apply Hushed_panic].
Qed.

Lemma Hushed_Close : Hushed Close.
Proof. unfold Close. hushed. Qed.

Lemma Hushed_HandleMessage (msg : option sarama.ConsumerMessage) :
  Hushed (HandleMessage time_Now ProcessMessage_fn msg).
Proof. unfold HandleMessage. hushed. Qed.

Lemma Hushed_messages_loop (msgs : list (option sarama.ConsumerMessage)) :
  Hushed (messages_loop time_Now ProcessMessage_fn msgs).
Proof.
  pose proof Hushed_HandleMessage.
  induction msgs as [|msg msgs IH]; cbn [messages_loop]; unfold MarkMessage;
    hushed.
Qed.

Lemma Hushed_ConsumeClaim (claim : sarama.ConsumerGroupClaim) :
  Hushed (ConsumeClaim time_Now ProcessMessage_fn claim).
Proof.
  pose proof Hushed_messages_loop.
  unfold ConsumeClaim. hushed.
Qed.

Lemma Hushed_run_callbacks (cbs : list Callback) :
  Hushed (run_callbacks time_Now ProcessMessage_fn cbs).
Proof.
  pose proof Hushed_Setup. pose proof Hushed_Cleanup.
  pose proof Hushed_Close. pose proof Hushed_ConsumeClaim.
  induction cbs as [|cb cbs IH]; [apply Hushed_ret|].
  cbn [run_callbacks].
  apply Hushed_bind; [|intros _; exact IH].
  destruct cb; cbn [run_callback]; hushed.
Qed.

Lemma Hushed_Consume_enter (topics : list string) : Hushed (Consume_enter topics).
Proof. unfold Consume_enter. hushed. Qed.

Lemma Hushed_Consume (topics : list string) (call : ConsumeCall) :
  Hushed (Consume time_Now ProcessMessage_fn topics call).
Proof.
  pose proof Hushed_Consume_enter. pose proof Hushed_run_callbacks.
  unfold Consume. hushed.
Qed.

Lemma Hushed_after_Consume (ctx : nat) (err : option error) :
  Hushed (after_Consume ctx err).
Proof. unfold after_Consume. hushed. Qed.

Lemma Hushed_driver_loop (ctx : nat) (script : list ConsumeCall) :
  Hushed (driver_loop time_Now ProcessMessage_fn ctx script).
Proof.
  pose proof Hushed_Consume_enter. pose proof Hushed_Consume.
  pose proof Hushed_after_Consume.
  induction script as [|call rest IH]; cbn [driver_loop]; hushed.
Qed.

Lemma Hushed_Serve (script : list ConsumeCall) :
  Hushed (Serve time_Now ProcessMessage_fn script).
Proof.
  pose proof Hushed_driver_loop.
  unfold Serve. hushed.
Qed.

Lemma Hushed_run_op (op : Op) : Hushed (run_op time_Now ProcessMessage_fn op).
Proof.
  pose proof Hushed_Serve. pose proof Hushed_Setup.
  pose proof Hushed_Cleanup. pose proof Hushed_ConsumeClaim.
  pose proof Hushed_HandleMessage. pose proof Hushed_ProcessMessage.
  pose proof Hushed_Close.
  destruct op; cbn [run_op]; hushed.
Qed.

(** The verbose flag only adds log entries.  Whatever operations are run,
    the consumer that is not verbose returns the same values, ends the same
    way, counts the same, and leaves the same channels, contexts and clock
    as the verbose one; its trace is the verbose one's without the entries
    that carry a payload. *)
Theorem Verbose_only_adds_log_entries (ops : list Op) (s : State) :
  run_ops time_Now ProcessMessage_fn ops (hush s)
  = outcome_hush (run_ops time_Now ProcessMessage_fn ops s).
Proof.
  pose proof Hushed_run_op.
  revert s. change (Hushed (run_ops time_Now ProcessMessage_fn ops)).
  induction ops as [|op ops IH]; cbn [run_ops]; hushed.
Qed.

End Baseline.

(** * The lifecycle on sample inputs *)

(** One message more than the success counter can hold: the counter wraps
    around to zero. *)
Lemma ConsumeClaim_counts_witness :
  exists s',
    ConsumeClaim (L := Sample.library) Sample.clock ProcessMessage_fn
      (Sample.claim [Some (Sample.message 0 "a")])
      (sample_counting (2 ^ 64 - 1) 0, Sample.heap) = Ret None s'
    /\ GetNumberOfSuccessfullyConsumedMessages (fst s') = 0
    /\ GetNumberOfErrorsConsumingMessages (fst s') = 0.
Proof.
  assert (Hs : 0 <= 2 ^ 64 - 1 < uint64_modulus)
    by (split; [vm_compute; intro H; discriminate H|reflexivity]).
  assert (He : 0 <= 0 < uint64_modulus)
    by (split; [vm_compute; intro H; discriminate H|reflexivity]).
  destruct (ConsumeClaim_counts (L := Sample.library) Sample.clock
              ProcessMessage_fn (Sample.claim [Some (Sample.message 0 "a")])
              (sample_counting (2 ^ 64 - 1) 0) Sample.heap Hs He)
    as (s' & Hrun & Hsucc & Herr).
  exists s'. split; [exact Hrun|]. split; [exact Hsucc|exact Herr].
Defined.

Lemma Close_stops_the_driver_witness :
  exists s1,
    Consume (L := Sample.library) Sample.clock ProcessMessage_fn ["ccx"]
      {| callbacks := [OnSetup; OnClose; OnCleanup]; result := None |}
      (Sample.serving Sample.library false false, Sample.serving_heap)
    = Ret None s1
    /\ driver_loop (L := Sample.library) Sample.clock ProcessMessage_fn 0
         [{| callbacks := [OnSetup; OnClose; OnCleanup]; result := None |};
          Sample.generation None]
         (Sample.serving Sample.library false false, Sample.serving_heap)
       = Ret Stopped (fst s1, heap_emit [stopping_log] (snd s1)).
Proof.
  eexists. split; [vm_compute; reflexivity|].
  refine (proj1 (Close_stops_the_driver (L := Sample.library) Sample.clock
            ProcessMessage_fn 0
            {| callbacks := [OnSetup; OnClose; OnCleanup]; result := None |}
            [Sample.generation None]
            (Sample.serving Sample.library false false, Sample.serving_heap)
            _ _ _ _ _)).
  - reflexivity.
  - vm_compute. constructor.
  - right. left. reflexivity.
  - vm_compute; reflexivity.
Defined.

Lemma Close_cancels_the_stored_context_witness :
  exists s',
    Close (L := Sample.library)
      (Sample.serving Sample.library false false, Sample.serving_heap)
    = Ret None s'
    /\ cancelled 0 (snd s') = true.
Proof.
  destruct (Close_cancels_the_stored_context (L := Sample.library)
              (Sample.serving Sample.library false false) Sample.serving_heap 0
              eq_refl (le_n 1))
    as (s' & Hrun & Hcancelled & _).
  exists s'. split; [exact Hrun|exact Hcancelled].
Defined.



Lemma Setup_fires_once_witness :
  exists h',
    Setup (L := Sample.library)
      (Sample.consumer Sample.library false false, Sample.heap)
    = Ret None (Sample.consumer Sample.library false false, h')
    /\ chans h' = [true]
    /\ exists s'',
         Setup (L := Sample.library)
           (Sample.consumer Sample.library false false, h')
         = Panic "close of closed channel" s''.
Proof.
  destruct (Setup_fires_once (L := Sample.library)
              (Sample.consumer Sample.library false false) Sample.heap 0
              eq_refl eq_refl)
    as (h' & Hrun & _ & Hfired & _ & _ & Hagain).
  exists h'. split; [exact Hrun|]. split; [|exact Hagain].
  revert Hrun. vm_compute. intro Hrun. inversion Hrun. reflexivity.
Defined.

Lemma only_Serve_sets_Cancel_witness :
  Cancel
    (fst (final (run_ops (L := Sample.library) Sample.clock ProcessMessage_fn
                   [OpSetup; OpHandleMessage (Some (Sample.message 0 "a"));
                    OpClose; OpCleanup]
                   (Sample.consumer Sample.library false false, Sample.heap))))
  = None.
Proof.
  exact (proj1 (only_Serve_sets_Cancel (L := Sample.library) Sample.clock
           ProcessMessage_fn
           [OpSetup; OpHandleMessage (Some (Sample.message 0 "a"));
            OpClose; OpCleanup]
           (Sample.consumer Sample.library false false, Sample.heap) eq_refl)).
Defined.

(** The verbose consumer logs the payloads; the other one logs the same but
    for them. *)
Example verbose_logs_the_payloads :
  exists s s',
    ConsumeClaim (L := Sample.library) Sample.clock ProcessMessage_fn
      (Sample.claim [Some (Sample.message 0 "a"); Some (Sample.message 1 "bc")])
      (Sample.consumer Sample.library false true, Sample.heap) = Ret None s
    /\ ConsumeClaim (L := Sample.library) Sample.clock ProcessMessage_fn
         (Sample.claim [Some (Sample.message 0 "a"); Some (Sample.message 1 "bc")])
         (Sample.consumer Sample.library false false, Sample.heap) = Ret None s'
    /\ logged_contents (trace (snd s)) = ["a"; "bc"]
    /\ logged_contents (trace (snd s')) = []
    /\ trace (snd s') = mute (trace (snd s)).
Proof.
  eexists; eexists. split; [vm_compute; reflexivity|].
  split; [vm_compute; reflexivity|].
  repeat split; vm_compute; reflexivity.
Qed.

(** * Two claim loops at once *)

(** Run in one piece, the two halves of [HandleMessage] are
    [HandleMessage]. *)
Lemma HandleMessage_reads_then_writes {L : sarama.Library}
    (time_Now : nat -> Z) (process : Processor)
    (m : sarama.ConsumerMessage) (s : State) :
  HandleMessage time_Now process (Some m) s
  = bind (HandleMessage_reads time_Now process m)
         (HandleMessage_writes m) s.
Proof.
  destruct s as [c h].
  unfold HandleMessage, HandleMessage_reads, HandleMessage_writes,
    run_processor, bind, emit, log, emit, self, time_now, update, ret; simpl.
  rewrite emit_logs_run; simpl.
  destruct (snd (process (Verbose c) m)) as [e|]; simpl; destruct c; reflexivity.
Qed.

(** C8. The counters should never go down; with two claim loops at once
    they can.  The loop of one partition handles a message and has read the
    success counter, 0, when the loop of another partition handles two
    messages in full: [GetNumberOfSuccessfullyConsumedMessages] returns 2.
    Then the first loop writes the value it read plus one, and the getter
    returns 1. *)
Lemma concurrent_claim_loops_lose_updates :
  exists held s1 s2 s3 s4,
    HandleMessage_reads (L := Sample.library) Sample.clock ProcessMessage_fn
      (sample_message_of 0 0 "a")
      (Sample.consumer Sample.library false false, Sample.heap) = Ret held s1
    /\ HandleMessage Sample.clock ProcessMessage_fn
         (Some (sample_message_of 1 0 "b")) s1 = Ret tt s2
    /\ HandleMessage Sample.clock ProcessMessage_fn
         (Some (sample_message_of 1 1 "c")) s2 = Ret tt s3
    /\ GetNumberOfSuccessfullyConsumedMessages (fst s3) = 2
    /\ HandleMessage_writes (sample_message_of 0 0 "a") held s3 = Ret tt s4
    /\ GetNumberOfSuccessfullyConsumedMessages (fst s4) = 1
    /\ GetNumberOfSuccessfullyConsumedMessages (fst s4)
       < GetNumberOfSuccessfullyConsumedMessages (fst s3).
Proof.
  do 5 eexists.
  split; [vm_compute; reflexivity|].
  split; [vm_compute; reflexivity|].
  split; [vm_compute; reflexivity|].
  split; [vm_compute; reflexivity|].
  split; [vm_compute; reflexivity|].
  split; vm_compute; reflexivity.
Qed.
